(** * Jotnar: a schema layer in front of a LokiJS collection

    Shallow embedding of [src/index.js]: the table of built-in coercions
    [_types], the class [Jotnar] with [define], the two closures [insert] and
    [update] that [define] installs on the collection handle, [getModel] and
    [serializeReplacer].

    Conventions of the embedding.

    - JavaScript values are the data that a document can hold: the
      primitives ([undefined], [null], booleans, numbers, strings, symbols
      and BigInts), [Date] objects, arrays and plain objects.  Functions
      occur in declarations only.  A string is the sequence of its code
      units, which are below 256.
    - A plain object is the ordered association list of its own properties:
      the order is the order in which [for ... in] visits the keys.  A read
      [o[k]] that finds no own property goes on to [Object.prototype]: it
      finds a member there for the names of [Object_prototype] and is
      [undefined] for every other name.  An assignment [o[k] = v] makes an
      own property; the one exception of JavaScript, the key [__proto__],
      whose assignment runs a setter, is never assigned by the code unless a
      declaration has an own property of that name, and declarations are
      taken without one.
    - A number is kept as the decimal digits that ECMA-262's
      [Number::toString] prints for it: sign, digits [d1 ... dk] and the
      position [n] of the decimal point, standing for [0.d1...dk * 10^n].
      Printing a number is therefore exact.  Reading a numeral keeps all of
      its digits, which agrees with binary64 whenever the numeral has at most
      15 significant digits and its value is in the range of binary64.
    - What the host leaves to the implementation (parsing and printing of
      dates) and the LokiJS collection are interfaces: the classes [Host] and
      [Store].  Of LokiJS's own code the embedding has one fact: its [update],
      called with an array, calls the method [update] of the collection on
      each element.
    - A call that throws returns [Throw e]; the database is threaded through
      [define], [insert] and [update] explicitly, together with the list of
      calls made to the store. *)

From stdpp Require Import gmap strings list fin_maps.
From Stdlib Require Import ZArith Ascii DecimalString DecimalN Lia Sorted.

Local Open Scope Z_scope.

(** ** Decimal digits *)

Inductive digit : Set :=
  | dg0 | dg1 | dg2 | dg3 | dg4 | dg5 | dg6 | dg7 | dg8 | dg9.

Definition is_dg0 (d : digit) : bool :=
  match d with dg0 => true | _ => false end.

Definition ascii_of_digit (d : digit) : ascii :=
  match d with
  | dg0 => "0" | dg1 => "1" | dg2 => "2" | dg3 => "3" | dg4 => "4"
  | dg5 => "5" | dg6 => "6" | dg7 => "7" | dg8 => "8" | dg9 => "9"
  end%char.

Definition digit_of_ascii (c : ascii) : option digit :=
  match c with
  | "0" => Some dg0 | "1" => Some dg1 | "2" => Some dg2 | "3" => Some dg3
  | "4" => Some dg4 | "5" => Some dg5 | "6" => Some dg6 | "7" => Some dg7
  | "8" => Some dg8 | "9" => Some dg9 | _ => None
  end%char.

Fixpoint digits_of_uint (u : Decimal.uint) : list digit :=
  match u with
  | Decimal.Nil => []
  | Decimal.D0 u => dg0 :: digits_of_uint u
  | Decimal.D1 u => dg1 :: digits_of_uint u
  | Decimal.D2 u => dg2 :: digits_of_uint u
  | Decimal.D3 u => dg3 :: digits_of_uint u
  | Decimal.D4 u => dg4 :: digits_of_uint u
  | Decimal.D5 u => dg5 :: digits_of_uint u
  | Decimal.D6 u => dg6 :: digits_of_uint u
  | Decimal.D7 u => dg7 :: digits_of_uint u
  | Decimal.D8 u => dg8 :: digits_of_uint u
  | Decimal.D9 u => dg9 :: digits_of_uint u
  end.

Fixpoint uint_of_digits (ds : list digit) : Decimal.uint :=
  match ds with
  | [] => Decimal.Nil
  | d :: ds =>
      let u := uint_of_digits ds in
      match d with
      | dg0 => Decimal.D0 u | dg1 => Decimal.D1 u | dg2 => Decimal.D2 u
      | dg3 => Decimal.D3 u | dg4 => Decimal.D4 u | dg5 => Decimal.D5 u
      | dg6 => Decimal.D6 u | dg7 => Decimal.D7 u | dg8 => Decimal.D8 u
      | dg9 => Decimal.D9 u
      end
  end.

(** The decimal digits of a natural number, most significant first, and
    back. *)
Definition digits_of_N (n : N) : list digit := digits_of_uint (N.to_uint n).
Definition N_of_digits (ds : list digit) : N := N.of_uint (uint_of_digits ds).

Fixpoint string_of_digits (ds : list digit) : string :=
  match ds with
  | [] => EmptyString
  | d :: ds => String (ascii_of_digit d) (string_of_digits ds)
  end.

(** The longest prefix of decimal digits of a string, and what follows it. *)
Fixpoint span_digits (s : string) : list digit * string :=
  match s with
  | EmptyString => ([], EmptyString)
  | String c s' =>
      match digit_of_ascii c with
      | Some d => let (ds, r) := span_digits s' in (d :: ds, r)
      | None => ([], s)
      end
  end.

(** ** Numbers *)

(** [Fin neg ds n] is [(-1)^neg * 0.ds * 10^n].  It is in normal form when
    [ds] is not empty and neither starts nor ends with the digit 0: these are
    the [s], [k = length ds] and [n] of [Number::toString]. *)
Inductive number : Set :=
  | NaN
  | Inf (neg : bool)
  | Zero (neg : bool)
  | Fin (neg : bool) (ds : list digit) (n : Z).

Fixpoint strip_leading (ds : list digit) : list digit :=
  match ds with
  | dg0 :: ds' => strip_leading ds'
  | _ => ds
  end.

Fixpoint strip_trailing (ds : list digit) : list digit :=
  match ds with
  | [] => []
  | d :: ds' =>
      match strip_trailing ds' with
      | [] => if is_dg0 d then [] else [d]
      | r => d :: r
      end
  end.

(** The number [(-1)^neg * 0.ds * 10^pt] in normal form. *)
Definition mk_number (neg : bool) (ds : list digit) (pt : Z) : number :=
  let ds1 := strip_leading ds in
  match strip_trailing ds1 with
  | [] => Zero neg
  | ds2 => Fin neg ds2 (pt - (Z.of_nat (length ds) - Z.of_nat (length ds1)))
  end.

Definition normalize (x : number) : number :=
  match x with
  | Fin neg ds n => mk_number neg ds n
  | _ => x
  end.

Definition number_of_N (n : N) : number :=
  let ds := digits_of_N n in mk_number false ds (Z.of_nat (length ds)).

Definition number_of_Z (z : Z) : number :=
  let ds := digits_of_N (Z.abs_N z) in
  mk_number (z <? 0) ds (Z.of_nat (length ds)).

(** [decimal m e] is [m * 10^e]. *)
Definition decimal (m e : Z) : number :=
  let ds := digits_of_N (Z.abs_N m) in
  mk_number (m <? 0) ds (Z.of_nat (length ds) + e).

Definition zeros (n : Z) : list digit := replicate (Z.to_nat n) dg0.

(** ECMA-262 Number::toString(x), radix 10, on a number in normal form. *)
Definition print_number (x : number) : string :=
  match x with
  | NaN => "NaN"
  | Zero _ => "0"
  | Inf false => "Infinity"
  | Inf true => "-Infinity"
  | Fin neg ds n =>
      let k := Z.of_nat (length ds) in
      let body :=
        if (k <=? n) && (n <=? 21) then
          string_of_digits (ds ++ zeros (n - k))
        else if (0 <? n) && (n <=? 21) then
          string_of_digits (take (Z.to_nat n) ds) +:+ "." +:+
          string_of_digits (drop (Z.to_nat n) ds)
        else if (-6 <? n) && (n <=? 0) then
          "0." +:+ string_of_digits (zeros (- n) ++ ds)
        else
          let e := n - 1 in
          let es := (if e <? 0 then "-" else "+") +:+
                    string_of_digits (digits_of_N (Z.abs_N e)) in
          match ds with
          | [] => "e" +:+ es
          | [d] => string_of_digits [d] +:+ "e" +:+ es
          | d :: rest =>
              string_of_digits [d] +:+ "." +:+ string_of_digits rest +:+
              "e" +:+ es
          end
      in (if neg then "-" else EmptyString) +:+ body
  end.

Definition NumberToString (x : number) : string := print_number (normalize x).

(** White space: the members of StrWhiteSpaceChar below 256, which are the
    tabulations, the line terminators, the space and the no-break space. *)
Definition is_white (c : ascii) : bool :=
  match c with
  | " " | "009" | "010" | "011" | "012" | "013" | "160" => true
  | _ => false
  end%char.

Fixpoint trim_left (s : string) : string :=
  match s with
  | String c s' => if is_white c then trim_left s' else s
  | EmptyString => EmptyString
  end.

Fixpoint trim_right (s : string) : string :=
  match s with
  | EmptyString => EmptyString
  | String c s' =>
      match trim_right s' with
      | EmptyString => if is_white c then EmptyString else String c EmptyString
      | r => String c r
      end
  end.

Definition trim (s : string) : string := trim_right (trim_left s).

(** An optional sign: whether it is a minus, and the rest of the string. *)
Definition take_sign (s : string) : bool * string :=
  match s with
  | String "-" r => (true, r)
  | String "+" r => (false, r)
  | _ => (false, s)
  end.

Definition strip_prefix (p s : string) : option string :=
  if String.prefix p s
  then Some (String.substring (String.length p)
                              (String.length s - String.length p) s)
  else None.

(** The exponent part [e SignedInteger] of a decimal literal, when there is
    one: its value and the rest of the string. *)
Definition take_exponent (s : string) : Z * string :=
  match s with
  | String c r =>
      if (Ascii.eqb c "e" || Ascii.eqb c "E")%bool then
        let (neg, r1) := take_sign r in
        let (ds, r2) := span_digits r1 in
        match ds with
        | [] => (0, s)
        | _ => let v := Z.of_N (N_of_digits ds) in
               (if neg then - v else v, r2)
        end
      else (0, s)
  | EmptyString => (0, s)
  end.

(** The longest prefix that is a StrDecimalLiteral: its value and the rest of
    the string; [None] when no prefix is one. *)
Definition parse_decimal (s : string) : option (number * string) :=
  let (neg, s1) := take_sign s in
  match strip_prefix "Infinity" s1 with
  | Some r => Some (Inf neg, r)
  | None =>
      let (ip, s2) := span_digits s1 in
      let (fp, s3) :=
        match s2 with
        | String "." r =>
            let (fp, r') := span_digits r in
            match ip, fp with
            | [], [] => ([], s2)
            | _, _ => (fp, r')
            end
        | _ => ([], s2)
        end in
      match ip ++ fp with
      | [] => None
      | ds =>
          let (e, s4) := take_exponent s3 in
          Some (mk_number neg ds (Z.of_nat (length ip) + e), s4)
      end
  end.

(** parseFloat applied to a string. *)
Definition parseFloat_string (s : string) : number :=
  match parse_decimal (trim_left s) with
  | Some (x, _) => x
  | None => NaN
  end.

Definition hex_value (c : ascii) : option N :=
  match digit_of_ascii c with
  | Some d => Some (N_of_digits [d])
  | None =>
      let n := N_of_ascii c in
      if ((97 <=? n) && (n <=? 102))%N then Some (n - 87)%N
      else if ((65 <=? n) && (n <=? 70))%N then Some (n - 55)%N
      else None
  end.

(** The longest prefix of digits of radix [r <= 16]: whether it is not empty,
    and its value. *)
Fixpoint span_radix (r : N) (s : string) (seen : bool) (acc : N) : bool * N :=
  match s with
  | String c s' =>
      match hex_value c with
      | Some v => if (v <? r)%N then span_radix r s' true (acc * r + v)%N
                  else (seen, acc)
      | None => (seen, acc)
      end
  | EmptyString => (seen, acc)
  end.

Fixpoint all_radix (r : N) (s : string) : bool :=
  match s with
  | String c s' =>
      match hex_value c with
      | Some v => (v <? r)%N && all_radix r s'
      | None => false
      end
  | EmptyString => true
  end.

(** parseInt applied to a string, with no radix argument. *)
Definition parseInt_string (s : string) : number :=
  let (neg, s1) := take_sign (trim_left s) in
  let hex := match s1 with
             | String "0" (String c r) =>
                 if (Ascii.eqb c "x" || Ascii.eqb c "X")%bool then Some r
                 else None
             | _ => None
             end in
  match hex with
  | Some r =>
      match span_radix 16 r false 0 with
      | (true, v) =>
          let ds := digits_of_N v in mk_number neg ds (Z.of_nat (length ds))
      | (false, _) => NaN
      end
  | None =>
      match span_digits s1 with
      | ([], _) => NaN
      | (ds, _) => mk_number neg ds (Z.of_nat (length ds))
      end
  end.

(** StringToNumber: the whole trimmed string has to be a numeric literal. *)
Definition StringToNumber (s : string) : number :=
  let t := trim s in
  let radix_literal (r : N) (body : string) : number :=
    match body with
    | EmptyString => NaN
    | _ => if all_radix r body
           then number_of_N (snd (span_radix r body false 0)) else NaN
    end in
  match t with
  | EmptyString => Zero false
  | String "0" (String c body) =>
      if (Ascii.eqb c "x" || Ascii.eqb c "X")%bool then radix_literal 16%N body
      else if (Ascii.eqb c "o" || Ascii.eqb c "O")%bool then radix_literal 8%N body
      else if (Ascii.eqb c "b" || Ascii.eqb c "B")%bool then radix_literal 2%N body
      else match parse_decimal t with
           | Some (x, EmptyString) => x
           | _ => NaN
           end
  | _ =>
      match parse_decimal t with
      | Some (x, EmptyString) => x
      | _ => NaN
      end
  end.

(** parseInt and parseFloat applied to a number: the argument is first
    converted to a string. *)
Definition parseInt (x : number) : number := parseInt_string (NumberToString x).
Definition parseFloat (x : number) : number := parseFloat_string (NumberToString x).

(** ** Values *)

#[local] Set Warnings "-register-all".

Inductive value : Type :=
  | VUndefined
  | VNull
  | VBool (b : bool)
  | VNum (x : number)
  | VStr (s : string)
  | VSymbol (description : string)          (* a symbol; no description reads as the empty one *)
  | VBigInt (n : Z)
  | VDate (t : number)                      (* a Date object and its time value *)
  | VArr (l : list value)
  | VObj (o : list (string * value)).       (* a plain object *)

(** What ECMA-262 leaves to the implementation. *)
Class Host := {
  Date_parse : string -> number;            (* Date.parse *)
  Date_toString : number -> string;         (* Date.prototype.toString *)
  Date_toISOString : number -> string       (* Date.prototype.toISOString *)
}.

(** *** Objects as ordered maps *)

Fixpoint get {A} (o : list (string * A)) (k : string) : option A :=
  match o with
  | [] => None
  | (k', v) :: o' => if decide (k = k') then Some v else get o' k
  end.

Definition keys {A} (o : list (string * A)) : list string := map fst o.

(** The names of the properties of [Object.prototype].  Each is a function,
    but [__proto__], an accessor whose getter returns the prototype, an
    object: what a read finds under one of these names is truthy, is not
    [null], and has no property [parse], [notNull] or [_collection]. *)
Definition Object_prototype : list string :=
  ["constructor"; "__defineGetter__"; "__defineSetter__"; "hasOwnProperty";
   "__lookupGetter__"; "__lookupSetter__"; "isPrototypeOf";
   "propertyIsEnumerable"; "toString"; "valueOf"; "__proto__";
   "toLocaleString"].

(** What the read [o[k]] finds on a plain object: an own property, a member
    of [Object.prototype], or nothing, which reads as [undefined]. *)
Inductive member (A : Type) : Type :=
  | Own (a : A)
  | Inherited
  | Missing.
Arguments Own {A} a.
Arguments Inherited {A}.
Arguments Missing {A}.

Definition member_of {A} (own : option A) (k : string) : member A :=
  match own with
  | Some a => Own a
  | None => if bool_decide (k ∈ Object_prototype) then Inherited else Missing
  end.

Definition read {A} (o : list (string * A)) (k : string) : member A :=
  member_of (get o k) k.

(** A key is an array index when it is the canonical numeral of an integer
    below 2^32 - 1. *)
Definition array_index (k : string) : option N :=
  match span_digits k with
  | (d :: ds, EmptyString) =>
      let n := N_of_digits (d :: ds) in
      if (negb (is_dg0 d) || bool_decide (ds = [])) && (n <? 4294967295)%N
      then Some n else None
  | _ => None
  end.

(** [key_before k k']: a new key [k] is enumerated before the key [k'].
    Array indices come first, in ascending order; the other keys follow in
    the order of their creation. *)
Definition key_before (k k' : string) : bool :=
  match array_index k, array_index k' with
  | Some i, Some j => (i <? j)%N
  | Some _, None => true
  | None, _ => false
  end.

(** The assignment [o[k] = v]. *)
Fixpoint obj_set {A} (k : string) (v : A) (o : list (string * A))
  : list (string * A) :=
  match o with
  | [] => [(k, v)]
  | (k', v') :: o' =>
      if decide (k = k') then (k, v) :: o'
      else if key_before k k' then (k, v) :: o
      else (k', v') :: obj_set k v o'
  end.

Definition index_key (i : nat) : string :=
  string_of_digits (digits_of_N (N.of_nat i)).

Fixpoint string_chars (s : string) : list string :=
  match s with
  | EmptyString => []
  | String c s' => String c EmptyString :: string_chars s'
  end.

(** The keys that [for (k in v)] visits. *)
Definition own_keys (v : value) : list string :=
  match v with
  | VObj o => keys o
  | VArr l => index_key <$> seq 0 (length l)
  | VStr s => index_key <$> seq 0 (String.length s)
  | _ => []
  end.

(** ** Errors and results *)

Inductive error : Type :=
  | RedefinitionError (name : string)
      (* Error(`Redefinition of model ${name}`) *)
  | ReservedFieldError (prop : string)
      (* Error("Declaration of reserved property '...' not allowed") *)
  | NotNullConstraintError (prop name : string)
      (* Error(`Not null constraint failed for property '${prop}' of
         collection '${name}'.`) *)
  | TypeError
  | Thrown (v : value).                     (* thrown by a caller's function or by the store *)

Inductive res (A : Type) : Type :=
  | Ok (a : A)
  | Throw (e : error).
Arguments Ok {A} a.
Arguments Throw {A} e.

Definition bind {A B} (r : res A) (f : A -> res B) : res B :=
  match r with
  | Ok a => f a
  | Throw e => Throw e
  end.

Notation "'let*' x ':=' r 'in' k" := (bind r (fun x => k))
  (at level 10, x name, r at level 100, k at level 200).

(** The property read [v[k]] (also written [v.k]), for a key that is an
    own property of [v] or that no prototype of [v] has: the code reads the
    keys that [for ... in] has visited, and [meta], [$loki] and
    [allowExtraProperties]. *)
Definition get_prop (v : value) (k : string) : res value :=
  match v with
  | VUndefined | VNull => Throw TypeError
  | VObj o => Ok (default VUndefined (get o k))
  | VArr l =>
      Ok (match array_index k with
          | Some i => default VUndefined (l !! N.to_nat i)
          | None => if decide (k = "length")
                    then VNum (number_of_N (N.of_nat (length l)))
                    else VUndefined
          end)
  | VStr s =>
      Ok (match array_index k with
          | Some i => default VUndefined (VStr <$> string_chars s !! N.to_nat i)
          | None => if decide (k = "length")
                    then VNum (number_of_N (N.of_nat (String.length s)))
                    else VUndefined
          end)
  | _ => Ok VUndefined
  end.

(** The test [v == null]. *)
Definition is_nullish (v : value) : bool :=
  match v with
  | VUndefined | VNull => true
  | _ => false
  end.

(** The test [o[k] == null] on a plain object: a member of
    [Object.prototype] is not [null]. *)
Definition member_nullish (x : member value) : bool :=
  match x with
  | Own v => is_nullish v
  | Inherited => false
  | Missing => true
  end.

(** ** Conversions *)

(** BigInt::toString *)
Definition string_of_Z (n : Z) : string :=
  (if n <? 0 then "-" else EmptyString) +:+
  string_of_digits (digits_of_N (Z.abs_N n)).

(** The strings of the elements of an array, with a comma between them. *)
Fixpoint join (strings : list string) : string :=
  match strings with
  | [] => EmptyString
  | [s] => s
  | s :: r => s +:+ "," +:+ join r
  end.

Section Conversions.
Context `{Host}.

(** ToString.  A symbol has no string; an array is joined; a date prints as
    the host prints it; a plain object prints as [[object Object]] through
    [Object.prototype.toString], unless it has an own property [toString],
    which is data and cannot be called. *)
Fixpoint ToString (v : value) : res string :=
  match v with
  | VUndefined => Ok "undefined"
  | VNull => Ok "null"
  | VBool true => Ok "true"
  | VBool false => Ok "false"
  | VNum x => Ok (NumberToString x)
  | VStr s => Ok s
  | VSymbol _ => Throw TypeError
  | VBigInt n => Ok (string_of_Z n)
  | VDate t => Ok (Date_toString t)
  | VArr l =>
      let element (x : value) : res string :=
        match x with
        | VUndefined | VNull => Ok EmptyString
        | _ => ToString x
        end in
      let* strings :=
        (fix elements (l : list value) : res (list string) :=
           match l with
           | [] => Ok []
           | x :: r =>
               let* s := element x in
               let* strings := elements r in
               Ok (s :: strings)
           end) l in
      Ok (join strings)
  | VObj o =>
      if bool_decide ("toString" ∈ keys o) then Throw TypeError
      else Ok "[object Object]"
  end.

(** The method call [v.toString()]: a symbol has the method, [undefined] and
    [null] have no property. *)
Definition toString (v : value) : res string :=
  match v with
  | VUndefined | VNull => Throw TypeError
  | VSymbol description => Ok ("Symbol(" +:+ description +:+ ")")
  | _ => ToString v
  end.

(** ToPrimitive without a preferred type.  An array or a plain object has no
    primitive value of its own: it ends at its string. *)
Definition ToPrimitive (v : value) : res value :=
  match v with
  | VDate _ | VArr _ | VObj _ => let* s := ToString v in Ok (VStr s)
  | _ => Ok v
  end.

(** ToNumber. *)
Definition ToNumber (v : value) : res number :=
  match v with
  | VUndefined => Ok NaN
  | VNull => Ok (Zero false)
  | VBool true => Ok (number_of_Z 1)
  | VBool false => Ok (Zero false)
  | VNum x => Ok x
  | VStr s => Ok (StringToNumber s)
  | VSymbol _ | VBigInt _ => Throw TypeError
  | VDate t => Ok t
  | VArr _ | VObj _ => let* s := ToString v in Ok (StringToNumber s)
  end.

(** The call [Number(v)]: ToNumber, but a BigInt is converted. *)
Definition Number_of (v : value) : res number :=
  match v with
  | VBigInt n => Ok (number_of_Z n)
  | _ => ToNumber v
  end.

(** ToBoolean, which is also [Boolean(v)] and the test of [if (v)]. *)
Definition ToBoolean (v : value) : bool :=
  match v with
  | VUndefined | VNull => false
  | VBool b => b
  | VNum x => match normalize x with NaN | Zero _ => false | _ => true end
  | VStr s => negb (bool_decide (s = EmptyString))
  | VBigInt n => negb (n =? 0)
  | VSymbol _ | VDate _ | VArr _ | VObj _ => true
  end.

(** TimeClip: a time value is an integer of magnitude at most 8.64e15. *)
Definition TimeClip (x : number) : number :=
  match normalize x with
  | NaN | Inf _ => NaN
  | Zero _ => Zero false
  | Fin neg ds n =>
      if n <=? 0 then Zero false
      else if 16 <? n then NaN
      else
        let ip := take (Z.to_nat n) (ds ++ zeros (n - Z.of_nat (length ds))) in
        let iv := N_of_digits ip in
        let frac := n <? Z.of_nat (length ds) in
        if ((8640000000000000 <? iv)%N
            || ((iv =? 8640000000000000)%N && frac))%bool
        then NaN
        else mk_number neg ip n
  end.

(** [new Date(v)] for a [v] that is not a date. *)
Definition Date_new (v : value) : res value :=
  let* p := ToPrimitive v in
  match p with
  | VStr s => Ok (VDate (Date_parse s))
  | _ => let* x := ToNumber p in Ok (VDate (TimeClip x))
  end.

(** [JSON.parse(JSON.stringify(v))]; [None] when [JSON.stringify] leaves
    the value out, as it does with [undefined] and with a symbol.  It throws
    on a BigInt. *)
Fixpoint json_copy (v : value) : res (option value) :=
  match v with
  | VUndefined | VSymbol _ => Ok None
  | VBigInt _ => Throw TypeError
  | VNull => Ok (Some VNull)
  | VBool b => Ok (Some (VBool b))
  | VNum x =>
      Ok (Some match normalize x with
               | NaN | Inf _ => VNull
               | _ => VNum (StringToNumber (NumberToString x))
               end)
  | VStr s => Ok (Some (VStr s))
  | VDate t =>
      Ok (Some match normalize t with
               | NaN | Inf _ => VNull
               | _ => VStr (Date_toISOString t)
               end)
  | VArr l =>
      let* l' :=
        (fix elements (l : list value) : res (list value) :=
           match l with
           | [] => Ok []
           | x :: r =>
               let* y := json_copy x in
               let* r' := elements r in
               Ok (default VNull y :: r')
           end) l in
      Ok (Some (VArr l'))
  | VObj o =>
      let* o' :=
        (fix props (o : list (string * value))
           : res (list (string * value)) :=
           match o with
           | [] => Ok []
           | (k, x) :: r =>
               let* y := json_copy x in
               let* r' := props r in
               Ok match y with
                  | Some y => (k, y) :: r'
                  | None => r'
                  end
           end) o in
      Ok (Some (VObj o'))
  end.

Definition json_copy_object (o : list (string * value))
  : res (list (string * value)) :=
  let* c := json_copy (VObj o) in
  match c with
  | Some (VObj o') => Ok o'
  | _ => Ok []
  end.

(** ** The built-in coercions: [_types] *)

(** [value => value] *)
Definition ANY (v : value) : res value := Ok v.

(** [value => value == null ? null : parseInt(Number(value))] *)
Definition INTEGER (v : value) : res value :=
  if is_nullish v then Ok VNull
  else let* x := Number_of v in Ok (VNum (parseInt x)).

(** [value => value == null ? null : parseFloat(Number(value))] *)
Definition FLOAT (v : value) : res value :=
  if is_nullish v then Ok VNull
  else let* x := Number_of v in Ok (VNum (parseFloat x)).

(** [value => value == null ? null : value.toString()] *)
Definition STRING (v : value) : res value :=
  if is_nullish v then Ok VNull
  else let* s := toString v in Ok (VStr s).

(** [value => value == null ? null : Boolean(value)] *)
Definition BOOLEAN (v : value) : res value :=
  if is_nullish v then Ok VNull else Ok (VBool (ToBoolean v)).

(** [value => value == null ? null
             : (value instanceof Date ? value : new Date(value))] *)
Definition DATE (v : value) : res value :=
  if is_nullish v then Ok VNull
  else match v with
       | VDate _ => Ok v
       | _ => Date_new v
       end.

Definition _types : list (string * (value -> res value)) :=
  [("ANY", ANY); ("INTEGER", INTEGER); ("FLOAT", FLOAT);
   ("STRING", STRING); ("BOOLEAN", BOOLEAN); ("DATE", DATE)].

End Conversions.

(** The loop [for (x of xs) body], threading what the body assigns to. *)
Fixpoint for_each {A S} (xs : list A) (body : S -> A -> res S) (s : S)
  : res S :=
  match xs with
  | [] => Ok s
  | x :: xs' => let* s' := body s x in for_each xs' body s'
  end.

(** ** The store *)

(** The LokiJS collection: what [new Collection(name, options)] builds or
    throws, the field [uniqueNames], and the two write methods [insert] and
    [update] as they are before [define] replaces them.  [loki_update] is
    LokiJS's [update] on a value that is not an array; on an array LokiJS
    loops over the method [update] of the collection, and [batch_begin] and
    [batch_end] are what it does to the collection before and after that
    loop. *)
Class Store := {
  collection : Type;
  new_collection : string -> value -> res collection;
  set_uniqueNames : list string -> collection -> collection;
  loki_insert : value -> collection -> res value * collection;
  loki_update : value -> collection -> res value * collection;
  batch_begin : collection -> collection;
  batch_end : collection -> collection
}.

(** The calls that reach the store. *)
Inductive store_call : Type :=
  | GetCollection (name : string)
  | AddCollection (name : string) (options : value)
  | Insert (name : string) (arg : value)
  | Update (name : string) (arg : value).

(** [null], [undefined] or a collection, which is referred to by its
    name. *)
Inductive ref : Type :=
  | RefNull
  | RefUndefined
  | RefCollection (name : string).

(** ** The class [Jotnar] *)

Module Jotnar.

(** A function of a declaration: it is called with one value and returns
    one or throws. *)
Definition coercion : Type := value -> res value.

(** A property declaration as an object: [type] is absent or a function;
    an absent field reads as [undefined]. *)
Record spec := {
  type : option coercion;
  allowNull : value;
  defaultValue : value;
  unique : value
}.

(** [definition.prop] is an object or a function. *)
Inductive decl : Type :=
  | DObject (d : spec)
  | DFunction (f : coercion).

(** An entry of [_scheme]. *)
Record rule := {
  parse : coercion;
  notNull : bool
}.

(** An entry of [this.models].  [_collection] is [null] or the collection,
    which is referred to by its name. *)
Record model := {
  _collection : option string;
  _unique : list string;
  _scheme : list (string * rule);
  _defaultObject : list (string * value);
  _nonStrict : value
}.

Section WithStore.
Context `{Host} `{Store}.

(** The database: the own properties of the registry [this.models], the
    collections of the underlying Loki instance, and the calls made to the
    store so far. *)
Record jotnar := {
  models : gmap string model;
  collections : gmap string collection;
  calls : list store_call
}.

(** [new Jotnar(filename, options)] *)
Definition constructor : jotnar :=
  {| models := ∅; collections := ∅; calls := [] |}.

(** A method: it returns or throws, and leaves a database. *)
Definition M (A : Type) : Type := jotnar -> res A * jotnar.

Definition ret {A} (a : A) : M A := fun db => (Ok a, db).
Definition throw {A} (e : error) : M A := fun db => (Throw e, db).
Definition lift {A} (r : res A) : M A := fun db => (r, db).
Definition mbind {A B} (c : M A) (k : A -> M B) : M B :=
  fun db =>
    match c db with
    | (Ok a, db') => k a db'
    | (Throw e, db') => (Throw e, db')
    end.

Notation "'let!' x ':=' c 'in' k" := (mbind c (fun x => k))
  (at level 10, x name, c at level 100, k at level 200).

(** The loop [for (...) body(x)] of a method: it stops at the first call
    that throws. *)
Definition each {A B} (body : A -> M B) : list A -> M unit :=
  fix loop (xs : list A) : M unit :=
    match xs with
    | [] => ret tt
    | x :: xs' => let! _ := body x in loop xs'
    end.

(** The read [this.models[name]]. *)
Definition registered (name : string) (db : jotnar) : member model :=
  member_of (models db !! name) name.

Definition set_model (name : string) (m : model) : M unit :=
  fun db =>
    (Ok tt, {| models := <[name := m]> (models db);
               collections := collections db;
               calls := calls db |}).

(** [this.getCollection(name)] *)
Definition getCollection (name : string) : M (option string) :=
  fun db =>
    (Ok (match collections db !! name with
         | Some _ => Some name
         | None => None
         end),
     {| models := models db;
        collections := collections db;
        calls := calls db ++ [GetCollection name] |}).

(** [this.addCollection(name, options)], when there is no collection of
    that name. *)
Definition addCollection (name : string) (options : value) : M string :=
  fun db =>
    match new_collection name options with
    | Ok c =>
        (Ok name,
         {| models := models db;
            collections := <[name := c]> (collections db);
            calls := calls db ++ [AddCollection name options] |})
    | Throw e =>
        (Throw e,
         {| models := models db;
            collections := collections db;
            calls := calls db ++ [AddCollection name options] |})
    end.

(** [handle.uniqueNames = names] *)
Definition assign_uniqueNames (handle : string) (names : list string)
  : M unit :=
  fun db =>
    match collections db !! handle with
    | None => (Throw TypeError, db)
    | Some c =>
        (Ok tt,
         {| models := models db;
            collections := <[handle := set_uniqueNames names c]> (collections db);
            calls := calls db |})
    end.

(** [handle._insert(arg)]: the method [insert] of the LokiJS collection,
    kept under this name by [define]. *)
Definition _insert (handle : option string) (arg : value) : M value :=
  fun db =>
    match handle with
    | None => (Throw TypeError, db)
    | Some h =>
        match collections db !! h with
        | None => (Throw TypeError, db)
        | Some c =>
            let (r, c') := loki_insert arg c in
            (r, {| models := models db;
                   collections := <[h := c']> (collections db);
                   calls := calls db ++ [Insert h arg] |})
        end
    end.

(** [handle._update(arg)]: the method [update] of the LokiJS collection,
    kept under this name by [define].  Called with an array, LokiJS calls
    [this.update] on each element in turn and returns [undefined]:
    [this_update] is the method that the handle has by then.  When a call
    throws, the loop stops there and the error goes on to the caller. *)
Definition _update (this_update : value -> M value) (handle : option string)
    (arg : value) : M value :=
  fun db =>
    match handle with
    | None => (Throw TypeError, db)
    | Some h =>
        match collections db !! h with
        | None => (Throw TypeError, db)
        | Some c =>
            match arg with
            | VArr l =>
                let (r, db') :=
                  each this_update l
                    {| models := models db;
                       collections := <[h := batch_begin c]> (collections db);
                       calls := calls db ++ [Update h arg] |} in
                (let* _ := r in Ok VUndefined,
                 {| models := models db';
                    collections := alter batch_end h (collections db');
                    calls := calls db' |})
            | _ =>
                let (r, c') := loki_update arg c in
                (r, {| models := models db;
                       collections := <[h := c']> (collections db);
                       calls := calls db ++ [Update h arg] |})
            end
        end
    end.

(** [self.models[name]] in a closure of [define]: the entry of line 73, an
    own property. *)
Definition the_model (name : string) : M model :=
  fun db =>
    match models db !! name with
    | Some m => (Ok m, db)
    | None => (Throw TypeError, db)
    end.

(** The assignment [options.unique = names] in strict-mode code. *)
Definition assign_unique (options : value) (names : list string)
  : res value :=
  match options with
  | VObj o => Ok (VObj (obj_set "unique" (VArr (VStr <$> names)) o))
  | VArr _ | VDate _ => Ok options
  | _ => Throw TypeError
  end.

(** The loop of [define] over the declared properties (lines 84-99). *)
Definition compile (definition : list (string * decl)) (m : model)
  : model :=
  foldl
    (fun m prop =>
       match get definition prop with
       | Some (DObject d) =>
           {| _collection := _collection m;
              _unique := if ToBoolean (unique d)
                         then _unique m ++ [prop] else _unique m;
              _scheme :=
                obj_set prop
                  {| parse := match type d with
                              | Some f => f
                              | None => ANY
                              end;
                     notNull := match allowNull d with
                                | VBool false => true
                                | _ => false
                                end |}
                  (_scheme m);
              _defaultObject :=
                obj_set prop
                  (match defaultValue d with
                   | VUndefined => VNull
                   | v => v
                   end)
                  (_defaultObject m);
              _nonStrict := _nonStrict m |}
       | Some (DFunction f) =>
           {| _collection := _collection m;
              _unique := _unique m;
              _scheme := obj_set prop {| parse := f; notNull := false |}
                                 (_scheme m);
              _defaultObject := obj_set prop VNull (_defaultObject m);
              _nonStrict := _nonStrict m |}
       | None => m
       end)
    m (keys definition).

Definition with_collection (m : model) (c : option string) : model :=
  {| _collection := c;
     _unique := _unique m;
     _scheme := _scheme m;
     _defaultObject := _defaultObject m;
     _nonStrict := _nonStrict m |}.

(** [if (!options) options = {};
     else if (options === true) options = { allowExtraProperties: true };] *)
Definition default_options (options : value) : value :=
  if negb (ToBoolean options) then VObj []
  else match options with
       | VBool true => VObj [("allowExtraProperties", VBool true)]
       | _ => options
       end.

(** [define (name, definition, options)].  The test of line 70 is a read of
    the registry: it also finds the members of [Object.prototype]. *)
Definition define (name : string) (definition : list (string * decl))
    (options : value) : M string :=
  let options := default_options options in
  fun db =>
    match registered name db with
    | Own _ | Inherited => throw (RedefinitionError name) db
    | Missing =>
        (let! allowExtraProperties :=
           lift (get_prop options "allowExtraProperties") in
         let m := {| _collection := None;
                     _unique := [];
                     _scheme := [];
                     _defaultObject := [];
                     _nonStrict := allowExtraProperties |} in
         let! _ := set_model name m in
         if bool_decide (is_Some (get definition "meta"))
         then throw (ReservedFieldError "meta")
         else if bool_decide (is_Some (get definition "$loki"))
         then throw (ReservedFieldError "$loki")
         else
           let m := compile definition m in
           let! _ := set_model name m in
           let! found := getCollection name in
           let! _ := set_model name (with_collection m found) in
           let! handle :=
             match found with
             | Some handle => ret handle
             | None =>
                 let! options := lift (assign_unique options (_unique m)) in
                 let! handle := addCollection name options in
                 let! _ := set_model name (with_collection m (Some handle)) in
                 ret handle
             end in
           let! _ := assign_uniqueNames handle (_unique m) in
           ret handle) db
    end.

(** The document [toInsert] that [insert] builds from one raw document
    (lines 119-132).  The reads [_scheme[prop]] and [toInsert[prop]] also
    find the members of [Object.prototype]: such a member has no [parse] to
    call, its [notNull] is [undefined], and it is not [null]. *)
Definition toInsert (m : model) (name : string) (obj : value)
  : res (list (string * value)) :=
  let* toInsert := json_copy_object (_defaultObject m) in
  let* toInsert :=
    for_each (own_keys obj)
      (fun toInsert prop =>
         match read (_scheme m) prop with
         | Own r =>
             let* x := get_prop obj prop in
             let* y := parse r x in
             Ok (obj_set prop y toInsert)
         | Inherited => Throw TypeError
         | Missing =>
             if ToBoolean (_nonStrict m) then
               let* x := get_prop obj prop in
               Ok (obj_set prop x toInsert)
             else Ok toInsert
         end)
      toInsert in
  let* _ :=
    for_each (keys (_defaultObject m))
      (fun _ prop =>
         if member_nullish (read toInsert prop)
         then match read (_scheme m) prop with
              | Own r =>
                  if notNull r
                  then Throw (NotNullConstraintError prop name)
                  else Ok tt
              | Inherited => Ok tt
              | Missing => Throw TypeError
              end
         else Ok tt)
      tt in
  Ok toInsert.

(** The closure [insert] that [define] installs for the model [name]. *)
Definition insert (name : string) (object : value) : M value :=
  let! m := the_model name in
  let objects := match object with VArr l => l | _ => [object] end in
  let! listToInsert :=
    lift (for_each objects
            (fun listToInsert obj =>
               let* toInsert := toInsert m name obj in
               Ok (listToInsert ++ [VObj toInsert]))
            []) in
  _insert (_collection m) (VArr listToInsert).

(** The document [toUpdate] that [update] builds from a raw document that
    is not an array, before [meta] and [$loki] are put on it
    (lines 148-161). *)
Definition toUpdate (m : model) (name : string) (object : value)
  : res (list (string * value)) :=
  let toUpdate := [] in
  let* toUpdate :=
    for_each (own_keys object)
      (fun toUpdate prop =>
         match read (_scheme m) prop with
         | Own r =>
             let* x := get_prop object prop in
             let* y := parse r x in
             Ok (obj_set prop y toUpdate)
         | Inherited => Throw TypeError
         | Missing =>
             if ToBoolean (_nonStrict m) then
               let* x := get_prop object prop in
               Ok (obj_set prop x toUpdate)
             else Ok toUpdate
         end)
      toUpdate in
  let* _ :=
    for_each (keys (_defaultObject m))
      (fun _ prop =>
         if member_nullish (read toUpdate prop)
         then match read (_scheme m) prop with
              | Own r =>
                  if notNull r
                  then Throw (NotNullConstraintError prop name)
                  else Ok tt
              | Inherited => Ok tt
              | Missing => Throw TypeError
              end
         else Ok tt)
      tt in
  Ok toUpdate.

(** The closure [update] that [define] installs for the model [name].  It is
    the method [update] of the handle from line 167 on, so it is the method
    that LokiJS calls on the elements of an array. *)
Fixpoint update (name : string) (object : value) {struct object} : M value :=
  let! m := the_model name in
  match object with
  | VArr _ => _update (update name) (_collection m) object
  | _ =>
      let! toUpdate :=
        lift (let* toUpdate := toUpdate m name object in
              let* meta := get_prop object "meta" in
              let toUpdate := obj_set "meta" meta toUpdate in
              let* loki := get_prop object "$loki" in
              let toUpdate := obj_set "$loki" loki toUpdate in
              Ok toUpdate) in
      _update (update name) (_collection m) (VObj toUpdate)
  end.

(** [getModel (name)] *)
Definition getModel (name : string) (db : jotnar) : ref :=
  match registered name db with
  | Own m =>
      match _collection m with
      | Some handle => RefCollection handle
      | None => RefNull
      end
  | Inherited => RefUndefined
  | Missing => RefNull
  end.

End WithStore.

(** The keys of the two groups of cases of [serializeReplacer]. *)
Definition nulled_keys : list string :=
  ["autosaveHandle"; "persistenceAdapter"; "constraints"; "ttl"].

Definition omitted_keys : list string :=
  ["models"; "TYPES"; "throttledSavePending"; "throttledCallbacks"].

(** [serializeReplacer (key, value)] *)
Definition serializeReplacer (key : string) (v : value) : value :=
  if bool_decide (key ∈ nulled_keys) then VNull
  else if bool_decide (key ∈ omitted_keys) then VUndefined
  else v.

End Jotnar.

(** ** Vocabulary of the statements *)

(** Digits in normal form: not empty, no zero in front, no zero at the end. *)
Definition normal_digits (ds : list digit) : bool :=
  match ds with
  | [] => false
  | d :: _ => negb (is_dg0 d) && negb (is_dg0 (List.last ds dg0))
  end.

Definition normal_number (x : number) : bool :=
  match x with
  | Fin _ ds _ => normal_digits ds
  | _ => true
  end.

(** A number with the sign of a zero forgotten. *)
Definition positive_zero (x : number) : number :=
  match x with
  | Zero _ => Zero false
  | _ => x
  end.

Definition positive_zero_value (v : value) : value :=
  match v with
  | VNum x => VNum (positive_zero x)
  | _ => v
  end.

(** The kind of value a built-in coercion returns on an argument that is
    neither [null] nor [undefined]. *)
Definition result_kind (name : string) (v : value) : Prop :=
  if decide (name = "INTEGER") then exists x, v = VNum x
  else if decide (name = "FLOAT") then exists x, v = VNum x
  else if decide (name = "STRING") then exists s, v = VStr s
  else if decide (name = "BOOLEAN") then exists b, v = VBool b
  else if decide (name = "DATE") then exists t, v = VDate t
  else True.

(** The sign and the exponent part that [print_number] writes. *)
Definition sign_string (neg : bool) : string :=
  if neg then "-" else EmptyString.

Definition exponent_string (e : Z) : string :=
  "e" +:+ (if e <? 0 then "-" else "+") +:+
  string_of_digits (digits_of_N (Z.abs_N e)).

(** What [parseInt] returns on a number: [NaN], a zero, or an integer that
    prints without an exponent. *)
Definition is_integer_form (x : number) : bool :=
  match x with
  | NaN | Zero _ => true
  | Inf _ => false
  | Fin _ ds n =>
      normal_digits ds && (Z.of_nat (length ds) <=? n) && (n <=? 21)
  end.

Import Jotnar.

Notation "'let!' x ':=' c 'in' k" := (mbind c (fun x => k))
  (at level 10, x name, c at level 100, k at level 200).

(** The body of the loop over the properties of a raw document, in [insert]
    and in [update]. *)
Definition assign `{Host} (m : model) (obj : value)
    (target : list (string * value)) (prop : string)
  : res (list (string * value)) :=
  match read (_scheme m) prop with
  | Own r =>
      let* x := get_prop obj prop in
      let* y := parse r x in
      Ok (obj_set prop y target)
  | Inherited => Throw TypeError
  | Missing =>
      if ToBoolean (_nonStrict m) then
        let* x := get_prop obj prop in
        Ok (obj_set prop x target)
      else Ok target
  end.

(** The body of the loop that checks the not-null constraints. *)
Definition check (m : model) (name : string)
    (target : list (string * value)) (_ : unit) (prop : string) : res unit :=
  if member_nullish (read target prop)
  then match read (_scheme m) prop with
       | Own r =>
           if notNull r
           then Throw (NotNullConstraintError prop name)
           else Ok tt
       | Inherited => Ok tt
       | Missing => Throw TypeError
       end
  else Ok tt.


(** The entry that [define] puts in the registry before it looks at the
    declaration. *)
Definition empty_model (allowExtraProperties : value) : model :=
  {| _collection := None;
     _unique := [];
     _scheme := [];
     _defaultObject := [];
     _nonStrict := allowExtraProperties |}.

(** [options.allowExtraProperties], once [options] has its default. *)
Definition allowExtraProperties (options : value) : value :=
  match get_prop (default_options options) "allowExtraProperties" with
  | Ok v => v
  | Throw _ => VUndefined
  end.

(** The database with another registry. *)
Definition with_models `{Store} (ms : gmap string model) (db : jotnar)
  : jotnar :=
  {| models := ms; collections := collections db; calls := calls db |}.

(** A call that a caller makes on the database, and the database after a
    sequence of such calls. *)
Inductive operation : Type :=
  | CallDefine (name : string) (definition : list (string * decl))
      (options : value)
  | CallInsert (name : string) (object : value)
  | CallUpdate (name : string) (object : value).

Definition after `{Host} `{Store} (db : jotnar) (op : operation) : jotnar :=
  match op with
  | CallDefine name definition options => (define name definition options db).2
  | CallInsert name object => (insert name object db).2
  | CallUpdate name object => (update name object db).2
  end.

Definition after_all `{Host} `{Store} (db : jotnar) (ops : list operation)
  : jotnar :=
  foldl after db ops.


Definition default_of (d : decl) : value :=
  match d with
  | DObject d => match defaultValue d with
                 | VUndefined => VNull
                 | v => v
                 end
  | DFunction _ => VNull
  end.



(** The operation is a call of [define] with this name. *)
Definition defines (name : string) (op : operation) : Prop :=
  match op with
  | CallDefine name' _ _ => name' = name
  | _ => False
  end.

(** [Array.isArray(v)] *)
Definition is_array (v : value) : bool :=
  match v with
  | VArr _ => true
  | _ => false
  end.

(** [Array.isArray(object) ? object : [object]] *)
Definition as_list (object : value) : list value :=
  match object with
  | VArr l => l
  | _ => [object]
  end.

(** The document that [update] hands to the store for a raw document that is
    not an array: the document of lines 148-161 with [meta] and [$loki] of
    the raw document on it (lines 162-163). *)
Definition updated_document `{Host} (m : model) (name : string)
    (object : value) : res (list (string * value)) :=
  let* toUpdate := toUpdate m name object in
  let* meta := get_prop object "meta" in
  let* loki := get_prop object "$loki" in
  Ok (obj_set "$loki" loki (obj_set "meta" meta toUpdate)).

(** The database [db'] differs from [db] by calls to the store on the
    collection of the model [name]: the registry is the same, the other
    collections are the same and no collection has gone. *)
Definition written `{Store} (name : string) (db db' : jotnar) : Prop :=
  models db' = models db
  /\ (forall other,
        (forall m, models db !! name = Some m -> _collection m <> Some other) ->
        collections db' !! other = collections db !! other)
  /\ (forall h, is_Some (collections db !! h) ->
                is_Some (collections db' !! h)).

(** The values of the claims on coercions: the primitives and the dates. *)
Definition primitive_or_date (v : value) : bool :=
  match v with
  | VArr _ | VObj _ => false
  | _ => true
  end.

(** The primitives on which a built-in coercion throws. *)
Definition throws_on (name : string) (v : value) : bool :=
  match v with
  | VSymbol _ => bool_decide (name ∈ ["INTEGER"; "FLOAT"; "DATE"])
  | VBigInt _ => bool_decide (name = "DATE")
  | _ => false
  end.



Section SnapshotModel.
Context `{Host}.

(** What [toJSON] makes of a value before the replacer sees it: only dates
    have the method. *)
Definition toJSON (v : value) : value :=
  match v with
  | VDate t => match normalize t with
               | NaN | Inf _ => VNull
               | _ => VStr (Date_toISOString t)
               end
  | _ => v
  end.

(** [JSON.parse(JSON.stringify(holder, serializeReplacer))] for the value [v]
    that [holder] has under [key]: [JSON.stringify] calls the replacer with
    every key and value it meets, the elements of an array under their
    indices.  [None] when the value is left out. *)
Fixpoint snapshot (key : string) (v : value) : res (option value) :=
  if bool_decide (key ∈ nulled_keys) then Ok (Some VNull)
  else if bool_decide (key ∈ omitted_keys) then Ok None
  else
    match v with
    | VUndefined | VSymbol _ => Ok None
    | VBigInt _ => Throw TypeError
    | VNull => Ok (Some VNull)
    | VBool b => Ok (Some (VBool b))
    | VNum x =>
        Ok (Some match normalize x with
                 | NaN | Inf _ => VNull
                 | _ => VNum (StringToNumber (NumberToString x))
                 end)
    | VStr s => Ok (Some (VStr s))
    | VDate t => Ok (Some (toJSON (VDate t)))
    | VArr l =>
        let* l' :=
          (fix elements (i : nat) (l : list value) : res (list value) :=
             match l with
             | [] => Ok []
             | x :: r =>
                 let* y := snapshot (index_key i) x in
                 let* r' := elements (S i) r in
                 Ok (default VNull y :: r')
             end) 0%nat l in
        Ok (Some (VArr l'))
    | VObj o =>
        let* o' :=
          (fix props (o : list (string * value))
             : res (list (string * value)) :=
             match o with
             | [] => Ok []
             | (k, x) :: r =>
                 let* y := snapshot k x in
                 let* r' := props r in
                 Ok match y with
                    | Some y => (k, y) :: r'
                    | None => r'
                    end
             end) o in
        Ok (Some (VObj o'))
    end.

(** No object inside the value has a property under a key that
    [serializeReplacer] leaves out, and the properties under the keys that it
    nulls are [null]. *)
Fixpoint scrubbed (v : value) : bool :=
  match v with
  | VArr l =>
      (fix all (l : list value) : bool :=
         match l with
         | [] => true
         | x :: r => scrubbed x && all r
         end) l
  | VObj o =>
      (fix all (o : list (string * value)) : bool :=
         match o with
         | [] => true
         | (k, x) :: r =>
             negb (bool_decide (k ∈ omitted_keys))
             && (negb (bool_decide (k ∈ nulled_keys))
                 || match x with VNull => true | _ => false end)
             && scrubbed x && all r
         end) o
  | _ => true
  end.

(** No key of the two groups occurs inside the value. *)
Fixpoint plain (v : value) : bool :=
  match v with
  | VArr l =>
      (fix all (l : list value) : bool :=
         match l with
         | [] => true
         | x :: r => plain x && all r
         end) l
  | VObj o =>
      (fix all (o : list (string * value)) : bool :=
         match o with
         | [] => true
         | (k, x) :: r =>
             negb (bool_decide (k ∈ omitted_keys))
             && negb (bool_decide (k ∈ nulled_keys))
             && plain x && all r
         end) o
  | _ => true
  end.

Fixpoint snapshot_elements (i : nat) (l : list value) : res (list value) :=
  match l with
  | [] => Ok []
  | x :: r =>
      let* y := snapshot (index_key i) x in
      let* r' := snapshot_elements (S i) r in
      Ok (default VNull y :: r')
  end.

Fixpoint snapshot_properties (o : list (string * value))
  : res (list (string * value)) :=
  match o with
  | [] => Ok []
  | (k, x) :: r =>
      let* y := snapshot k x in
      let* r' := snapshot_properties r in
      Ok match y with
         | Some y => (k, y) :: r'
         | None => r'
         end
  end.

(** The serialization of the value that the replacer has returned. *)
Definition serialize (r : value) : res (option value) :=
  match r with
  | VUndefined | VSymbol _ => Ok None
  | VBigInt _ => Throw TypeError
  | VNull => Ok (Some VNull)
  | VBool b => Ok (Some (VBool b))
  | VNum x =>
      Ok (Some match normalize x with
               | NaN | Inf _ => VNull
               | _ => VNum (StringToNumber (NumberToString x))
               end)
  | VStr s => Ok (Some (VStr s))
  | VDate t => Ok (Some (toJSON (VDate t)))
  | VArr l => let* l' := snapshot_elements 0 l in Ok (Some (VArr l'))
  | VObj o => let* o' := snapshot_properties o in Ok (Some (VObj o'))
  end.

End SnapshotModel.

(** ** A host and a store to run examples on *)

Definition example_host : Host :=
  {| Date_parse := fun _ => NaN;
     Date_toString := fun _ => "Invalid Date";
     Date_toISOString := fun _ => "1970-01-01T00:00:00.000Z" |}.

(** A collection that keeps the inserted documents in a list. *)
Definition example_store : Store :=
  {| collection := list value;
     new_collection := fun _ _ => Ok [];
     set_uniqueNames := fun _ c => c;
     loki_insert := fun arg c =>
       (Ok arg, match arg with VArr l => c ++ l | _ => c ++ [arg] end);
     loki_update := fun arg c => (Ok arg, c);
     batch_begin := fun c => c;
     batch_end := fun c => c |}.

Section Examples.
#[local] Existing Instance example_host.
#[local] Existing Instance example_store.

Definition INTEGER_type : coercion := INTEGER.

(** [{ age: { type: INTEGER, allowNull: false } }] *)
Definition age_definition : list (string * decl) :=
  [("age", DObject {| type := Some INTEGER_type;
                      allowNull := VBool false;
                      defaultValue := VUndefined;
                      unique := VUndefined |})].

(** [{ declaredProp: INTEGER, level: { type: INTEGER, defaultValue: 5 } }] *)
Definition level_definition : list (string * decl) :=
  [("declaredProp", DFunction INTEGER_type);
   ("level", DObject {| type := Some INTEGER_type;
                        allowNull := VUndefined;
                        defaultValue := VNum (number_of_Z 5);
                        unique := VUndefined |})].

(** [{ constructor: { allowNull: false }, title: STRING }] *)
Definition constructor_definition : list (string * decl) :=
  [("constructor", DObject {| type := None;
                              allowNull := VBool false;
                              defaultValue := VUndefined;
                              unique := VUndefined |});
   ("title", DFunction STRING)].

Definition people_db : jotnar :=
  snd (define "people" age_definition VUndefined constructor).

Definition strict_db : jotnar :=
  snd (define "things" level_definition VUndefined constructor).

Definition loose_db : jotnar :=
  snd (define "things" level_definition (VBool true) constructor).

(** The database after [define('people', ...)] and [define('things', ...)]. *)
Definition both_db : jotnar :=
  snd (define "things" level_definition VUndefined people_db).


(** [{ meta: INTEGER }] *)
Definition reserved_definition : list (string * decl) :=
  [("meta", DFunction INTEGER_type)].

Definition reserved_db : jotnar :=
  snd (define "log" reserved_definition VUndefined constructor).

(** The entries that [define] registers for these declarations. *)
Definition people_model : model :=
  with_collection (compile age_definition (empty_model VUndefined))
    (Some "people").

Definition things_model (allowExtraProperties : value) : model :=
  with_collection (compile level_definition (empty_model allowExtraProperties))
    (Some "things").

Definition constructor_model : model :=
  with_collection (compile constructor_definition (empty_model VUndefined))
    (Some "books").

(** [[{ age: "10" }, { age: null }]] *)
Definition age_batch : list value :=
  [VObj [("age", VStr "10")]; VObj [("age", VNull)]].

(** [{ declaredProp: 1, extra: "x" }] *)
Definition extra_document : list (string * value) :=
  [("declaredProp", VNum (number_of_Z 1)); ("extra", VStr "x")].


(** [{ declaredProp: 1, toString: "x" }] *)
Definition toString_document : list (string * value) :=
  [("declaredProp", VNum (number_of_Z 1)); ("toString", VStr "x")].

(** -0.5 *)
Definition minus_half : number := decimal (-5) (-1).

(** Calls that follow [define('people', ...)]. *)
Definition later_calls : list operation :=
  [CallInsert "people" (VObj [("age", VStr "30")]);
   CallDefine "people" level_definition (VBool true);
   CallDefine "things" level_definition VUndefined;
   CallUpdate "people" (VArr [])].

(** Calls with the name [toString]. *)
Definition inherited_calls : list operation :=
  [CallDefine "toString" age_definition VUndefined;
   CallDefine "people" age_definition VUndefined;
   CallInsert "toString" (VObj [("age", VStr "30")])].

(** [define('things', ..., 5)]: the options are a number, and the
    assignment of [unique] to them throws. *)
Definition failed_db : jotnar :=
  snd (define "things" level_definition (VNum (number_of_Z 5)) constructor).

(** Calls that do not define the model [ghost]. *)
Definition other_calls : list operation :=
  [CallDefine "people" age_definition VUndefined;
   CallInsert "ghost" VNull].

(** [[{ age: "10" }, { age: 20.5, extra: null }]] and the two documents that
    [insert] builds. *)
Definition good_batch : list value :=
  [VObj [("age", VStr "10")];
   VObj [("age", VNum (decimal 205 (-1))); ("extra", VNull)]].

Definition good_documents : list (list (string * value)) :=
  [[("age", VNum (number_of_Z 10))]; [("age", VNum (number_of_Z 20))]].

(** [{ level: "7", extra: "x", meta: null, $loki: 1 }] *)
Definition stored_document : value :=
  VObj [("level", VStr "7"); ("extra", VStr "x"); ("meta", VNull);
        ("$loki", VNum (number_of_Z 1))].

(** [{ name: "a", ttl: 5, inner: [{ models: [], age: 1 }] }] *)
Definition document_with_ttl : value :=
  VObj [("name", VStr "a"); ("ttl", VNum (number_of_Z 5));
        ("inner", VArr [VObj [("models", VArr []);
                              ("age", VNum (number_of_Z 1))]])].

End Examples.

(** * Facts *)

(** ** Numbers: printing and reading back *)

Section NumberFacts.
#[local] Arguments String.append !_ _ / : simpl nomatch.
#[local] Arguments take_exponent : simpl never.

Lemma digit_of_ascii_of_digit d : digit_of_ascii (ascii_of_digit d) = Some d.
Proof. by destruct d. Qed.

Lemma is_white_digit d : is_white (ascii_of_digit d) = false.
Proof. by destruct d. Qed.

Lemma string_of_digits_app ds ds' :
  string_of_digits (ds ++ ds') = string_of_digits ds +:+ string_of_digits ds'.
Proof. induction ds as [|d ds IH]; simpl; [done | by rewrite IH]. Qed.

Lemma span_digits_app ds s :
  span_digits (string_of_digits ds +:+ s)
  = (ds ++ (span_digits s).1, (span_digits s).2).
Proof.
  induction ds as [|d ds IH]; simpl.
  - by destruct (span_digits s).
  - by rewrite digit_of_ascii_of_digit, IH.
Qed.

Lemma span_digits_all ds : span_digits (string_of_digits ds) = (ds, EmptyString).
Proof.
  induction ds as [|d ds IH]; simpl; [done |].
  by rewrite digit_of_ascii_of_digit, IH.
Qed.

Lemma uint_of_digits_of_uint u : uint_of_digits (digits_of_uint u) = u.
Proof. induction u; simpl; congruence. Qed.

Lemma N_of_digits_of_N n : N_of_digits (digits_of_N n) = n.
Proof.
  unfold N_of_digits, digits_of_N.
  rewrite uint_of_digits_of_uint. apply DecimalN.Unsigned.of_to.
Qed.

Lemma digits_of_N_nonempty n : digits_of_N n <> [].
Proof.
  intros E. pose proof (N_of_digits_of_N n) as R. rewrite E in R.
  cbn in R. subst n. discriminate E.
Qed.

Lemma strip_trailing_zeros n : strip_trailing (replicate n dg0) = [].
Proof. induction n as [|n IH]; simpl; [done | by rewrite IH]. Qed.

Lemma strip_trailing_app_zeros ds n :
  strip_trailing (ds ++ replicate n dg0) = strip_trailing ds.
Proof.
  induction ds as [|d ds IH]; simpl.
  - apply strip_trailing_zeros.
  - by rewrite IH.
Qed.

Lemma strip_leading_zeros_app n ds :
  strip_leading (replicate n dg0 ++ ds) = strip_leading ds.
Proof. induction n as [|n IH]; simpl; done. Qed.

Lemma strip_leading_length ds : (length (strip_leading ds) <= length ds)%nat.
Proof.
  induction ds as [|d ds IH]; simpl; [done |].
  destruct d; simpl; lia.
Qed.

Lemma strip_trailing_id ds :
  ds <> [] -> is_dg0 (List.last ds dg0) = false -> strip_trailing ds = ds.
Proof.
  induction ds as [|d ds IH]; [done |]. intros _ L.
  destruct ds as [|d' ds].
  - simpl in *. by rewrite L.
  - change (List.last (d :: d' :: ds) dg0) with (List.last (d' :: ds) dg0) in L.
    change (strip_trailing (d :: d' :: ds))
      with (match strip_trailing (d' :: ds) with
            | [] => if is_dg0 d then [] else [d]
            | r => d :: r
            end).
    by rewrite IH.
Qed.

Lemma strip_trailing_last ds :
  strip_trailing ds <> [] ->
  is_dg0 (List.last (strip_trailing ds) dg0) = false.
Proof.
  induction ds as [|d ds IH]; simpl; [done |].
  destruct (strip_trailing ds) as [|d' r] eqn:E.
  - destruct (is_dg0 d) eqn:Z; [done |]. by simpl.
  - intros _. apply IH. done.
Qed.

Lemma strip_trailing_head d ds :
  is_dg0 d = false -> exists r, strip_trailing (d :: ds) = d :: r.
Proof.
  intros Z. simpl. destruct (strip_trailing ds); rewrite ?Z; eauto.
Qed.

Lemma strip_trailing_length ds : (length (strip_trailing ds) <= length ds)%nat.
Proof.
  induction ds as [|d ds IH]; simpl; [done |].
  destruct (strip_trailing ds); [destruct (is_dg0 d) |]; simpl in *; lia.
Qed.

Lemma strip_leading_head ds :
  match strip_leading ds with
  | [] => True
  | d :: _ => is_dg0 d = false
  end.
Proof. induction ds as [|d ds IH]; simpl; [done |]. by destruct d. Qed.

Lemma normal_digits_spec ds :
  normal_digits ds = true <->
  exists d r, ds = d :: r /\ is_dg0 d = false /\ is_dg0 (List.last ds dg0) = false.
Proof.
  unfold normal_digits. destruct ds as [|d r].
  - split; [done | by intros (? & ? & ? & _)].
  - rewrite andb_true_iff, !negb_true_iff. split.
    + intros [? ?]. eauto.
    + intros (? & ? & [= <- <-] & ? & ?). done.
Qed.

Lemma mk_number_of_normal neg ds pt :
  normal_digits ds = true -> mk_number neg ds pt = Fin neg ds pt.
Proof.
  intros (d & r & -> & Z & L)%normal_digits_spec. unfold mk_number.
  assert (strip_leading (d :: r) = d :: r) as -> by by destruct d.
  rewrite strip_trailing_id by done. f_equal. lia.
Qed.

Lemma mk_number_normal neg ds pt : normal_number (mk_number neg ds pt) = true.
Proof.
  unfold mk_number.
  pose proof (strip_leading_head ds) as Hd.
  destruct (strip_leading ds) as [|d r] eqn:E; [done |].
  destruct (strip_trailing_head d r Hd) as [r' R].
  pose proof (strip_trailing_last (d :: r)) as L. rewrite R in *.
  change (normal_digits (d :: r') = true).
  apply normal_digits_spec. exists d, r'.
  split_and!; [done | done | by apply L].
Qed.

Lemma normalize_normal x : normal_number (normalize x) = true.
Proof. destruct x; simpl; try done. apply mk_number_normal. Qed.

Lemma normalize_of_normal x : normal_number x = true -> normalize x = x.
Proof. destruct x; simpl; try done. apply mk_number_of_normal. Qed.


#[local] Arguments mk_number : simpl never.

Lemma take_sign_digit neg d r :
  take_sign (sign_string neg +:+ String (ascii_of_digit d) r)
  = (neg, String (ascii_of_digit d) r).
Proof. by destruct neg, d. Qed.

Lemma trim_left_sign_digit neg d r :
  trim_left (sign_string neg +:+ String (ascii_of_digit d) r)
  = sign_string neg +:+ String (ascii_of_digit d) r.
Proof. by destruct neg, d. Qed.

Lemma strip_prefix_Infinity_digit d r :
  strip_prefix "Infinity" (String (ascii_of_digit d) r) = None.
Proof. by destruct d. Qed.

Lemma take_exponent_string e :
  take_exponent (exponent_string e) = (e, EmptyString).
Proof.
  unfold exponent_string, take_exponent. simpl.
  assert (take_sign ((if e <? 0 then "-" else "+")
                     +:+ string_of_digits (digits_of_N (Z.abs_N e)))
          = (e <? 0, string_of_digits (digits_of_N (Z.abs_N e)))) as ->
    by by destruct (e <? 0).
  rewrite span_digits_all.
  pose proof (digits_of_N_nonempty (Z.abs_N e)) as NE.
  pose proof (N_of_digits_of_N (Z.abs_N e)) as V.
  destruct (digits_of_N (Z.abs_N e)) as [|d ds]; [done |].
  rewrite V. f_equal. destruct (Z.ltb_spec e 0); lia.
Qed.

Lemma span_digits_exponent_string e :
  span_digits (exponent_string e) = ([], exponent_string e).
Proof. done. Qed.

(** An integer numeral. *)
Lemma parse_decimal_integer neg d ip :
  parse_decimal (sign_string neg +:+ string_of_digits (d :: ip))
  = Some (mk_number neg (d :: ip) (Z.of_nat (length (d :: ip))), EmptyString).
Proof.
  unfold parse_decimal. simpl string_of_digits.
  rewrite take_sign_digit, strip_prefix_Infinity_digit.
  change (String (ascii_of_digit d) (string_of_digits ip))
    with (string_of_digits (d :: ip)).
  rewrite span_digits_all. rewrite app_nil_r.
  simpl. by rewrite Z.add_0_r.
Qed.

(** A numeral with a fraction. *)
Lemma parse_decimal_fraction neg d ip fp :
  parse_decimal (sign_string neg +:+ string_of_digits (d :: ip) +:+ "."
                 +:+ string_of_digits fp)
  = Some (mk_number neg ((d :: ip) ++ fp) (Z.of_nat (length (d :: ip))),
          EmptyString).
Proof.
  unfold parse_decimal. simpl string_of_digits.
  change (String (ascii_of_digit d) (string_of_digits ip) +:+ "." +:+
          string_of_digits fp)
    with (String (ascii_of_digit d)
            (string_of_digits ip +:+ "." +:+ string_of_digits fp)).
  rewrite take_sign_digit, strip_prefix_Infinity_digit.
  change (String (ascii_of_digit d)
            (string_of_digits ip +:+ "." +:+ string_of_digits fp))
    with (string_of_digits (d :: ip) +:+ "." +:+ string_of_digits fp).
  rewrite span_digits_app. simpl span_digits. rewrite app_nil_r.
  cbn [fst snd]. rewrite span_digits_all.
  simpl. by rewrite Z.add_0_r.
Qed.

(** A numeral in exponent notation, with and without a fraction. *)
Lemma parse_decimal_exponent neg d fp e :
  parse_decimal (sign_string neg +:+ string_of_digits [d] +:+
                 (match fp with
                  | [] => EmptyString
                  | _ => "." +:+ string_of_digits fp
                  end) +:+ exponent_string e)
  = Some (mk_number neg (d :: fp) (1 + e), EmptyString).
Proof.
  unfold parse_decimal. simpl string_of_digits.
  change (String (ascii_of_digit d) EmptyString +:+ ?s)
    with (String (ascii_of_digit d) s).
  rewrite take_sign_digit, strip_prefix_Infinity_digit.
  simpl span_digits. rewrite digit_of_ascii_of_digit.
  destruct fp as [|f fp].
  - change (EmptyString +:+ exponent_string e) with (exponent_string e).
    rewrite span_digits_exponent_string.
    unfold exponent_string at 1. simpl.
    fold (exponent_string e). rewrite take_exponent_string. done.
  - change (("." +:+ string_of_digits (f :: fp)) +:+ exponent_string e)
      with (String "." (string_of_digits (f :: fp) +:+ exponent_string e)).
    simpl span_digits at 1. cbv beta iota.
    change (String (ascii_of_digit f)
              (string_of_digits fp +:+ exponent_string e))
      with (string_of_digits (f :: fp) +:+ exponent_string e).
    rewrite span_digits_app, span_digits_exponent_string. cbn [fst snd].
    rewrite app_nil_r. simpl. rewrite take_exponent_string. done.
Qed.

Lemma mk_number_pad neg ds m pt :
  normal_digits ds = true ->
  mk_number neg (ds ++ replicate m dg0) pt = Fin neg ds pt.
Proof.
  intros N. pose proof N as (d & r & -> & Z & L)%normal_digits_spec.
  unfold mk_number.
  assert (strip_leading ((d :: r) ++ replicate m dg0)
          = (d :: r) ++ replicate m dg0) as -> by by destruct d.
  rewrite strip_trailing_app_zeros, strip_trailing_id by done.
  f_equal. lia.
Qed.

Lemma mk_number_lead neg ds m pt :
  normal_digits ds = true ->
  mk_number neg (replicate m dg0 ++ ds) pt = Fin neg ds (pt - Z.of_nat m).
Proof.
  intros N. pose proof N as (d & r & -> & Z & L)%normal_digits_spec.
  unfold mk_number. rewrite strip_leading_zeros_app.
  assert (strip_leading (d :: r) = d :: r) as -> by by destruct d.
  rewrite strip_trailing_id by done.
  f_equal. rewrite length_app, length_replicate. lia.
Qed.

Lemma print_number_Fin neg ds n :
  print_number (Fin neg ds n)
  = sign_string neg +:+
    (let k := Z.of_nat (length ds) in
     if (k <=? n) && (n <=? 21) then
       string_of_digits (ds ++ zeros (n - k))
     else if (0 <? n) && (n <=? 21) then
       string_of_digits (take (Z.to_nat n) ds) +:+ "." +:+
       string_of_digits (drop (Z.to_nat n) ds)
     else if (-6 <? n) && (n <=? 0) then
       string_of_digits [dg0] +:+ "." +:+ string_of_digits (zeros (- n) ++ ds)
     else
       match ds with
       | [] => exponent_string (n - 1)
       | d :: rest =>
           string_of_digits [d] +:+
           (match rest with
            | [] => EmptyString
            | _ => "." +:+ string_of_digits rest
            end) +:+ exponent_string (n - 1)
       end).
Proof.
  unfold print_number, exponent_string. f_equal. cbv zeta.
  do 3 (case_match; [reflexivity |]).
  by destruct ds as [|? [|? ?]].
Qed.

(** Reading back what [print_number] wrote gives the number, with a positive
    zero. *)
Lemma parseFloat_print x :
  normal_number x = true ->
  parseFloat_string (print_number x) = positive_zero x.
Proof.
  destruct x as [| [] | [] | neg ds n]; try done.
  intros N. simpl in N.
  pose proof N as (d & r & -> & Z & L)%normal_digits_spec.
  rewrite print_number_Fin. cbv zeta. unfold parseFloat_string.
  set (k := Z.of_nat (length (d :: r))).
  assert (K : k = Z.of_nat (length (d :: r))) by done.
  simpl positive_zero.
  destruct ((k <=? n) && (n <=? 21)) eqn:C1;
    [| destruct ((0 <? n) && (n <=? 21)) eqn:C2;
       [| destruct ((-6 <? n) && (n <=? 0)) eqn:C3]].
  - (* an integer *)
    unfold zeros.
    change ((d :: r) ++ ?z) with (d :: (r ++ z)).
    simpl string_of_digits.
    rewrite trim_left_sign_digit.
    change (String (ascii_of_digit d) (string_of_digits ?l))
      with (string_of_digits (d :: l)).
    rewrite parse_decimal_integer.
    change (d :: r ++ ?z) with ((d :: r) ++ z).
    rewrite mk_number_pad by done. f_equal.
    rewrite length_app, length_replicate. lia.
  - (* digits on both sides of the point *)
    assert (exists m, Z.to_nat n = S m /\ (S m < length (d :: r))%nat)
      as (m & Em & Lm) by (exists (Z.to_nat (n - 1)); simpl in K; lia).
    rewrite Em.
    change (take (S m) (d :: r)) with (d :: take m r).
    simpl string_of_digits at 1.
    change (String (ascii_of_digit d) (string_of_digits (take m r)) +:+ ?s)
      with (String (ascii_of_digit d) (string_of_digits (take m r) +:+ s)).
    rewrite trim_left_sign_digit.
    change (String (ascii_of_digit d) (string_of_digits (take m r) +:+ ?s))
      with (string_of_digits (d :: take m r) +:+ s).
    rewrite parse_decimal_fraction.
    change (d :: take m r) with (take (S m) (d :: r)).
    rewrite take_drop, mk_number_of_normal by done.
    f_equal. rewrite length_take. lia.
  - (* a fraction below 1 *)
    change (string_of_digits [dg0] +:+ ?s)
      with (String (ascii_of_digit dg0) (EmptyString +:+ s)).
    rewrite trim_left_sign_digit.
    change (String (ascii_of_digit dg0) (EmptyString +:+ ?s))
      with (string_of_digits [dg0] +:+ s).
    rewrite parse_decimal_fraction.
    unfold zeros.
    change ([dg0] ++ replicate ?m dg0 ++ ?l) with (replicate (S m) dg0 ++ l).
    rewrite mk_number_lead by done. f_equal. simpl length. lia.
  - (* exponent notation *)
    change (string_of_digits [d] +:+ ?s)
      with (String (ascii_of_digit d) (EmptyString +:+ s)).
    rewrite trim_left_sign_digit.
    change (String (ascii_of_digit d) (EmptyString +:+ ?s))
      with (string_of_digits [d] +:+ s).
    rewrite parse_decimal_exponent, mk_number_of_normal by done.
    f_equal. lia.
Qed.

(** [parseInt] reads the digits in front of a numeral that does not start
    with the digit 0. *)
Lemma parseInt_string_digits neg d s ds rest :
  is_dg0 d = false ->
  span_digits (String (ascii_of_digit d) s) = (ds, rest) ->
  parseInt_string (sign_string neg +:+ String (ascii_of_digit d) s)
  = mk_number neg ds (Z.of_nat (length ds)).
Proof.
  intros Z S. unfold parseInt_string.
  rewrite trim_left_sign_digit, take_sign_digit.
  assert (match String (ascii_of_digit d) s with
          | String "0" (String c r) =>
              if (Ascii.eqb c "x" || Ascii.eqb c "X")%bool then Some r else None
          | _ => None
          end = None) as -> by by destruct d.
  rewrite S. simpl in S. rewrite digit_of_ascii_of_digit in S.
  destruct (span_digits s) as [ds' rest']. by injection S as <- <-.
Qed.

Lemma parseInt_string_zero_point neg s :
  parseInt_string (sign_string neg +:+ string_of_digits [dg0] +:+ "." +:+ s)
  = Zero neg.
Proof. by destruct neg. Qed.

Lemma mk_number_integer_form neg d ds :
  is_dg0 d = false -> (length (d :: ds) <= 21)%nat ->
  is_integer_form (mk_number neg (d :: ds) (Z.of_nat (length (d :: ds)))) = true.
Proof.
  intros Z L. pose proof (mk_number_normal neg (d :: ds) (Z.of_nat (length (d :: ds)))) as N.
  revert N. unfold mk_number.
  assert (strip_leading (d :: ds) = d :: ds) as -> by by destruct d.
  pose proof (strip_trailing_length (d :: ds)) as LT.
  destruct (strip_trailing (d :: ds)) as [|d' ds']; [done |].
  intros N. unfold is_integer_form. unfold normal_number in N.
  rewrite N. simpl in *.
  apply andb_true_iff; split; [| apply Z.leb_le; lia].
  apply Z.leb_le. lia.
Qed.

(** What [parseInt] makes of a printed number is an integer of at most 21
    digits, a zero or [NaN]. *)
Lemma parseInt_print_form x :
  normal_number x = true ->
  is_integer_form (parseInt_string (print_number x)) = true.
Proof.
  destruct x as [| [] | [] | neg ds n]; try done.
  intros N. simpl in N.
  pose proof N as (d & r & -> & Z & L)%normal_digits_spec.
  rewrite print_number_Fin. cbv zeta.
  set (k := Z.of_nat (length (d :: r))).
  assert (K : k = Z.of_nat (length (d :: r))) by done.
  destruct ((k <=? n) && (n <=? 21)) eqn:C1;
    [| destruct ((0 <? n) && (n <=? 21)) eqn:C2;
       [| destruct ((-6 <? n) && (n <=? 0)) eqn:C3]].
  - unfold zeros.
    change ((d :: r) ++ ?z) with (d :: (r ++ z)). simpl string_of_digits.
    erewrite parseInt_string_digits; [| done |].
    2:{ change (String (ascii_of_digit d) (string_of_digits ?l))
          with (string_of_digits (d :: l)).
        apply span_digits_all. }
    apply mk_number_integer_form; [done |].
    simpl. rewrite length_app, length_replicate. simpl in K. lia.
  - assert (exists m, Z.to_nat n = S m /\ (S m < length (d :: r))%nat)
      as (m & Em & Lm) by (exists (Z.to_nat (n - 1)); simpl in K; lia).
    rewrite Em.
    change (take (S m) (d :: r)) with (d :: take m r).
    simpl string_of_digits at 1.
    change (String (ascii_of_digit d) (string_of_digits (take m r)) +:+ ?s)
      with (String (ascii_of_digit d) (string_of_digits (take m r) +:+ s)).
    erewrite parseInt_string_digits; [| done |].
    2:{ change (String (ascii_of_digit d) (string_of_digits (take m r) +:+ ?s))
          with (string_of_digits (d :: take m r) +:+ s).
        rewrite span_digits_app. simpl. by rewrite app_nil_r. }
    apply mk_number_integer_form; [done |].
    simpl. rewrite length_take. simpl in Lm. lia.
  - by rewrite parseInt_string_zero_point.
  - change (string_of_digits [d] +:+ ?s)
      with (String (ascii_of_digit d) (EmptyString +:+ s)).
    clear N L k K C1 C2 C3.
    destruct r as [|f r];
      erewrite parseInt_string_digits
        by (done || (simpl; rewrite digit_of_ascii_of_digit; reflexivity));
      (apply (mk_number_integer_form neg d []); [done | simpl; lia]).
Qed.

(** [parseInt] leaves such a number as it is, up to the sign of a zero. *)
Lemma parseInt_print_fixed x :
  is_integer_form x = true ->
  parseInt_string (print_number x) = positive_zero x.
Proof.
  destruct x as [| [] | [] | neg ds n]; try done.
  intros [[N K]%andb_true_iff B]%andb_true_iff.
  apply Z.leb_le in K, B.
  pose proof N as (d & r & -> & Z & L)%normal_digits_spec.
  rewrite print_number_Fin. cbv zeta.
  assert ((Z.of_nat (length (d :: r)) <=? n) && (n <=? 21) = true) as ->
    by (apply andb_true_iff; split; apply Z.leb_le; lia).
  unfold zeros.
  change ((d :: r) ++ ?z) with (d :: (r ++ z)). simpl string_of_digits.
  erewrite parseInt_string_digits; [| done |].
  2:{ change (String (ascii_of_digit d) (string_of_digits ?l))
        with (string_of_digits (d :: l)).
      apply span_digits_all. }
  change (d :: r ++ ?z) with ((d :: r) ++ z).
  rewrite mk_number_pad by done. simpl positive_zero. f_equal.
  rewrite length_app, length_replicate. simpl length in *. lia.
Qed.

Lemma integer_form_normal x :
  is_integer_form x = true -> normal_number x = true.
Proof.
  destruct x as [| | | neg ds n]; try done.
  by intros [[N _]%andb_true_iff _]%andb_true_iff.
Qed.

Lemma positive_zero_normal x :
  normal_number x = true -> normal_number (positive_zero x) = true.
Proof. by destruct x. Qed.

Lemma parseFloat_fixed x : parseFloat (parseFloat x) = parseFloat x.
Proof.
  unfold parseFloat, NumberToString.
  rewrite (parseFloat_print (normalize x)) by apply normalize_normal.
  rewrite normalize_of_normal
    by (apply positive_zero_normal, normalize_normal).
  rewrite parseFloat_print by (apply positive_zero_normal, normalize_normal).
  by destruct (normalize x).
Qed.

Lemma parseInt_twice x : parseInt (parseInt x) = positive_zero (parseInt x).
Proof.
  unfold parseInt, NumberToString.
  pose proof (parseInt_print_form (normalize x) (normalize_normal x)) as F.
  rewrite normalize_of_normal by by apply integer_form_normal.
  by apply parseInt_print_fixed.
Qed.

End NumberFacts.

(** ** Objects, loops and the two write operations *)

Section ObjectFacts.
Context {A : Type}.
Implicit Types (o : list (string * A)) (k : string).

Lemma get_obj_set_eq k (v : A) o : get (obj_set k v o) k = Some v.
Proof.
  induction o as [|[k' v'] o IH]; simpl.
  - by rewrite decide_True.
  - destruct (decide (k = k')) as [->|N]; simpl.
    + by rewrite decide_True.
    + destruct (key_before k k'); simpl.
      * by rewrite decide_True.
      * by rewrite decide_False.
Qed.

Lemma get_obj_set_ne k k' (v : A) o :
  k <> k' -> get (obj_set k v o) k' = get o k'.
Proof.
  intros N. induction o as [|[k'' v''] o IH]; simpl.
  - by rewrite decide_False.
  - destruct (decide (k = k'')) as [->|N']; simpl.
    + by rewrite !decide_False.
    + destruct (key_before k k''); simpl.
      * by rewrite (decide_False (P := k' = k)).
      * by rewrite IH.
Qed.

Lemma get_obj_set k k' (v : A) o :
  get (obj_set k v o) k' = if decide (k = k') then Some v else get o k'.
Proof.
  destruct (decide (k = k')) as [->|N].
  - apply get_obj_set_eq.
  - by apply get_obj_set_ne.
Qed.



End ObjectFacts.


Section LoopFacts.
Context {A S : Type}.

Lemma for_each_app (xs ys : list A) (body : S -> A -> res S) s :
  for_each (xs ++ ys) body s
  = (let* s' := for_each xs body s in for_each ys body s').
Proof.
  revert s. induction xs as [|x xs IH]; intros s; simpl; [done |].
  destruct (body s x); simpl; [apply IH | done].
Qed.

End LoopFacts.


Lemma for_each_tests_result {A} (xs : list A) (test : A -> res unit) u :
  for_each xs (fun _ x => test x) tt = Ok u -> u = tt.
Proof. by destruct u. Qed.


Lemma read_Inherited {A} (o : list (string * A)) k :
  read o k = Inherited <-> get o k = None /\ k ∈ Object_prototype.
Proof.
  unfold read, member_of. destruct (get o k); [| case_bool_decide];
    split; (congruence || tauto || by intros []).
Qed.


Lemma read_same {A B} (o : list (string * A)) (o' : list (string * B)) k :
  (is_Some (get o k) <-> is_Some (get o' k)) ->
  match read o k, read o' k with
  | Own _, Own _ | Inherited, Inherited | Missing, Missing => True
  | _, _ => False
  end.
Proof.
  unfold read, member_of. intros E.
  destruct (get o k), (get o' k); try done.
  - destruct E as [E _]. by destruct E.
  - destruct E as [_ E]. by destruct E.
  - by case_bool_decide.
Qed.

Section DocumentFacts.
Context `{Host}.
Implicit Types (m : model) (obj object : value) (k prop name : string).

Lemma toInsert_unfold m name obj :
  toInsert m name obj
  = (let* t0 := json_copy_object (_defaultObject m) in
     let* t := for_each (own_keys obj) (assign m obj) t0 in
     let* _ := for_each (keys (_defaultObject m))
                 (fun u prop => check m name t u prop) tt in
     Ok t).
Proof. reflexivity. Qed.

Lemma toUpdate_unfold m name object :
  toUpdate m name object
  = (let* t := for_each (own_keys object) (assign m object) [] in
     let* _ := for_each (keys (_defaultObject m))
                 (fun u prop => check m name t u prop) tt in
     Ok t).
Proof. reflexivity. Qed.











End DocumentFacts.

(** Induction on a value and the values inside it. *)
Lemma value_nested_ind (P : value -> Prop) :
  P VUndefined -> P VNull -> (forall b, P (VBool b)) ->
  (forall x, P (VNum x)) -> (forall s, P (VStr s)) ->
  (forall s, P (VSymbol s)) -> (forall n, P (VBigInt n)) ->
  (forall t, P (VDate t)) ->
  (forall l, Forall P l -> P (VArr l)) ->
  (forall o, Forall (fun kv => P kv.2) o -> P (VObj o)) ->
  forall v, P v.
Proof.
  intros Hu Hn Hb Hx Hs Hy Hi Hd Ha Ho. fix IH 1.
  intros [| | b | x | s | s | n | t | l | o].
  - exact Hu.
  - exact Hn.
  - apply Hb.
  - apply Hx.
  - apply Hs.
  - apply Hy.
  - apply Hi.
  - apply Hd.
  - apply Ha. induction l as [|x l IHl]; constructor; [apply IH | apply IHl].
  - apply Ho. induction o as [|[k x] o IHo]; constructor;
      [apply IH | apply IHo].
Qed.

Section WriteFacts.
Context `{Host} `{Store}.
Implicit Types (m : model) (obj object : value) (k prop name : string).
Implicit Types (db : jotnar).

(** The loop of [insert] over the raw documents stops at the first one
    whose document cannot be built. *)
Lemma insert_loop_throws m name objs obj e0 acc :
  In obj objs -> toInsert m name obj = Throw e0 ->
  exists e obj',
    In obj' objs /\ toInsert m name obj' = Throw e /\
    for_each objs
      (fun listToInsert obj =>
         let* toInsert := toInsert m name obj in
         Ok (listToInsert ++ [VObj toInsert]))
      acc = Throw e.
Proof.
  revert acc. induction objs as [|o objs IH]; intros acc I T; [done |].
  simpl. destruct (toInsert m name o) as [t|e] eqn:E; simpl.
  - destruct I as [-> | I]; [congruence |].
    destruct (IH (acc ++ [VObj t]) I T) as (e & obj' & ? & ? & ?).
    exists e, obj'. split_and!; [by right | done | done].
  - exists e, o. split_and!; [by left | done | done].
Qed.

(** C1.  A batch insert is all or nothing.  When the document of one raw
    document of the sequence cannot be built because a not-null constraint
    fails, [insert] throws, with the error of the first raw document that
    fails, and it leaves the database it was called on: the insert primitive
    of the store has not been called, for no document of the sequence, and
    the collections are as they were. *)
Theorem insert_batch_atomic name m objs obj prop db :
  models db !! name = Some m ->
  In obj objs ->
  toInsert m name obj = Throw (NotNullConstraintError prop name) ->
  exists e obj',
    In obj' objs /\ toInsert m name obj' = Throw e /\
    insert name (VArr objs) db = (Throw e, db).
Proof.
  intros M I T.
  destruct (insert_loop_throws m name objs obj _ [] I T)
    as (e & obj' & I' & T' & L).
  exists e, obj'. split_and!; [done | done |].
  unfold insert, mbind, the_model, lift. rewrite M. by rewrite L.
Qed.

(** [update], one call deep. *)
Lemma update_unfold name object :
  update name object
  = (let! m := the_model name in
     match object with
     | VArr _ => _update (update name) (_collection m) object
     | _ =>
         let! document := lift (updated_document m name object) in
         _update (update name) (_collection m) (VObj document)
     end).
Proof. destruct object; reflexivity. Qed.

Lemma _update_document (f : value -> M value) handle arg c db :
  collections db !! handle = Some c -> is_array arg = false ->
  _update f (Some handle) arg db
  = ((loki_update arg c).1,
     {| models := models db;
        collections := <[handle := (loki_update arg c).2]> (collections db);
        calls := calls db ++ [Update handle arg] |}).
Proof.
  intros G A. unfold _update. rewrite G.
  destruct arg; try done; by destruct (loki_update _ c).
Qed.

Lemma _update_array (f : value -> M value) handle l c db :
  collections db !! handle = Some c ->
  _update f (Some handle) (VArr l) db
  = (let out :=
       each f l
         {| models := models db;
            collections := <[handle := batch_begin c]> (collections db);
            calls := calls db ++ [Update handle (VArr l)] |} in
     (let* _ := out.1 in Ok VUndefined,
      {| models := models out.2;
         collections := alter batch_end handle (collections out.2);
         calls := calls out.2 |})).
Proof. intros G. unfold _update. rewrite G. by destruct (each _ _ _). Qed.

(** [update] on a raw document that is not an array, for a model that has
    its collection. *)
Lemma update_document name m handle c object db :
  models db !! name = Some m ->
  _collection m = Some handle ->
  collections db !! handle = Some c ->
  is_array object = false ->
  update name object db
  = match updated_document m name object with
    | Ok d =>
        ((loki_update (VObj d) c).1,
         {| models := models db;
            collections :=
              <[handle := (loki_update (VObj d) c).2]> (collections db);
            calls := calls db ++ [Update handle (VObj d)] |})
    | Throw e => (Throw e, db)
    end.
Proof.
  intros M C G A. rewrite update_unfold.
  unfold mbind, the_model, lift. rewrite M.
  destruct object; try done;
    (destruct (updated_document m name _); [| done];
     rewrite C; by apply _update_document).
Qed.

Lemma written_refl name db : written name db db.
Proof. by split_and!. Qed.

Lemma written_trans name db1 db2 db3 :
  written name db1 db2 -> written name db2 db3 -> written name db1 db3.
Proof.
  intros (M1 & O1 & P1) (M2 & O2 & P2). split_and!.
  - congruence.
  - intros other N. rewrite O2, O1; [done | done |].
    rewrite M1. done.
  - intros h S. by apply P2, P1.
Qed.

(** One call to a primitive of the store on the collection of the model. *)
Lemma written_primitive name m handle c' call db :
  models db !! name = Some m -> _collection m = Some handle ->
  written name db
    {| models := models db;
       collections := <[handle := c']> (collections db);
       calls := calls db ++ call |}.
Proof.
  intros M C. split_and!; simpl.
  - done.
  - intros other N. apply lookup_insert_ne. intros <-. by apply (N m).
  - intros h S. rewrite lookup_insert. case_decide; [eauto | done].
Qed.

Lemma each_written {A B} name (body : A -> M B) xs :
  Forall (fun x => forall db, written name db (body x db).2) xs ->
  forall db, written name db (each body xs db).2.
Proof.
  induction 1 as [|x xs Hx _ IH]; intros db; simpl.
  - apply written_refl.
  - unfold mbind. specialize (Hx db).
    destruct (body x db) as [[b|e] db']; simpl in *; [| done].
    eapply written_trans; [exact Hx | apply IH].
Qed.

(** The writes of [update] are writes on the collection of the model. *)
Lemma update_written name object : forall db,
  written name db (update name object db).2.
Proof.
  induction object as [| | b | x | s | s | n | t | l IH | o _]
    using value_nested_ind; intros db; rewrite update_unfold;
    unfold mbind, the_model, lift;
    (destruct (models db !! name) as [m|] eqn:M; [| apply written_refl]).
  9:{ destruct (_collection m) as [handle|] eqn:C; [| apply written_refl].
      destruct (collections db !! handle) as [c|] eqn:G.
      2:{ unfold _update. rewrite G. apply written_refl. }
      rewrite (_update_array _ _ _ c) by done. cbv zeta.
      set (db1 := {| models := models db; collections := _; calls := _ |}).
      assert (written name db db1) as W1 by by eapply written_primitive.
      pose proof (each_written name (update name) l IH db1) as W2.
      eapply written_trans; [exact W1 |].
      eapply written_trans; [exact W2 |].
      destruct W2 as (M2 & _ & _). split_and!; simpl.
      - done.
      - intros other N. apply lookup_alter_ne. intros <-.
        apply (N m); [| done]. rewrite M2. exact M.
      - intros h S. rewrite lookup_alter. case_decide; [subst|done].
        by apply fmap_is_Some. }
  all: destruct (updated_document m name _) as [d|]; [| apply written_refl];
    (destruct (_collection m) as [handle|] eqn:C; [| apply written_refl]);
    (destruct (collections db !! handle) as [c|] eqn:G;
     [| unfold _update; rewrite G; apply written_refl]);
    rewrite (_update_document _ _ _ c) by done;
    by eapply written_primitive.
Qed.





End WriteFacts.

Section DefineFacts.
Context `{Host} `{Store}.
Implicit Types (m : model) (k prop name : string).
Implicit Types (db : jotnar).

Lemma default_options_prop options k :
  exists v, get_prop (default_options options) k = Ok v.
Proof.
  unfold default_options.
  destruct (ToBoolean options) eqn:B; simpl; [| eauto].
  destruct options as [| |[]| | | | | | |]; simpl in *; try done; eauto.
Qed.

Lemma allowExtraProperties_read options :
  get_prop (default_options options) "allowExtraProperties"
  = Ok (allowExtraProperties options).
Proof.
  unfold allowExtraProperties.
  by destruct (default_options_prop options "allowExtraProperties") as [v ->].
Qed.

(** A name is taken when the read of the registry finds something: an
    entry, or a member of [Object.prototype]. *)
Lemma registered_taken name db :
  registered name db <> Missing
  <-> is_Some (models db !! name) \/ name ∈ Object_prototype.
Proof.
  unfold registered, member_of.
  destruct (models db !! name) as [m|]; [| case_bool_decide].
  - split; [eauto | done].
  - split; [by right | done].
  - split; [done | intros [[]%is_Some_None | ?]; done].
Qed.

Lemma registered_Own name db m :
  registered name db = Own m <-> models db !! name = Some m.
Proof.
  unfold registered, member_of.
  destruct (models db !! name); [| case_bool_decide]; split; congruence.
Qed.

Lemma registered_Missing name db :
  registered name db = Missing
  <-> models db !! name = None /\ name ∉ Object_prototype.
Proof.
  unfold registered, member_of.
  destruct (models db !! name); [| case_bool_decide];
    split; (congruence || tauto || by intros []).
Qed.

Lemma define_taken name definition options db :
  registered name db <> Missing ->
  define name definition options db = (Throw (RedefinitionError name), db).
Proof. intros T. unfold define. by destruct (registered name db). Qed.

(** What [define] does with a name that is not taken. *)
Lemma define_fresh name definition options db :
  registered name db = Missing ->
  let m0 := empty_model (allowExtraProperties options) in
  let m := compile definition m0 in
  define name definition options db =
    if bool_decide (is_Some (get definition "meta")) then
      (Throw (ReservedFieldError "meta"),
       with_models (<[name := m0]> (models db)) db)
    else if bool_decide (is_Some (get definition "$loki")) then
      (Throw (ReservedFieldError "$loki"),
       with_models (<[name := m0]> (models db)) db)
    else
      match collections db !! name with
      | Some c =>
          (Ok name,
           {| models := <[name := with_collection m (Some name)]> (models db);
              collections :=
                <[name := set_uniqueNames (_unique m) c]> (collections db);
              calls := calls db ++ [GetCollection name] |})
      | None =>
          match assign_unique (default_options options) (_unique m) with
          | Ok options' =>
              match new_collection name options' with
              | Ok c =>
                  (Ok name,
                   {| models :=
                        <[name := with_collection m (Some name)]> (models db);
                      collections :=
                        <[name := set_uniqueNames (_unique m) c]>
                          (collections db);
                      calls := calls db ++ [GetCollection name;
                                            AddCollection name options'] |})
              | Throw e =>
                  (Throw e,
                   {| models := <[name := with_collection m None]> (models db);
                      collections := collections db;
                      calls := calls db ++ [GetCollection name;
                                            AddCollection name options'] |})
              end
          | Throw e =>
              (Throw e,
               {| models := <[name := with_collection m None]> (models db);
                  collections := collections db;
                  calls := calls db ++ [GetCollection name] |})
          end
      end.
Proof.
  intros M. cbv zeta. unfold define, empty_model. rewrite M.
  unfold mbind at 1, lift at 1. rewrite allowExtraProperties_read.
  unfold mbind at 1, set_model at 1.
  destruct (bool_decide (is_Some (get definition "meta"))); [done |].
  destruct (bool_decide (is_Some (get definition "$loki"))); [done |].
  unfold mbind, set_model, getCollection, addCollection, lift, ret,
    assign_uniqueNames.
  simpl. destruct (collections db !! name) as [c|] eqn:C; simpl.
  - rewrite C. by rewrite !insert_insert_eq.
  - destruct (assign_unique _ _) as [options'|]; simpl.
    + destruct (new_collection name options'); simpl.
      * rewrite lookup_insert_eq. rewrite !insert_insert_eq.
        by rewrite <- app_assoc.
      * rewrite !insert_insert_eq. by rewrite <- app_assoc.
    + by rewrite !insert_insert_eq.
Qed.

Lemma assign_unique_error options names e :
  assign_unique options names = Throw e -> e = TypeError.
Proof. destruct options; simpl; congruence. Qed.

(** The registry after a call of [define]: the entry of the name is new, or
    the registry is as it was. *)
Lemma define_models name definition options db :
  models (define name definition options db).2 = models db
  \/ registered name db = Missing
     /\ exists m, models (define name definition options db).2
                  = <[name := m]> (models db).
Proof.
  destruct (registered name db) eqn:R.
  - left. rewrite define_taken; [done | by rewrite R].
  - left. rewrite define_taken; [done | by rewrite R].
  - right. split; [done |]. rewrite define_fresh by done. cbv zeta.
    repeat case_match; simpl; eauto.
Qed.

(** After a call of [define] the name is taken. *)
Lemma define_registers name definition options db :
  registered name (define name definition options db).2 <> Missing.
Proof.
  destruct (define_models name definition options db) as [E | [_ [m E]]];
    apply registered_taken; rewrite E.
  - apply registered_taken. intros R.
    assert (registered name db <> Missing) as T; [| done].
    intros R'. rewrite define_fresh in E by done. cbv zeta in E.
    apply (f_equal (fun ms => ms !! name)) in E.
    apply registered_Missing in R' as [N _]. rewrite N in E.
    revert E. repeat case_match; simpl; by rewrite lookup_insert_eq.
  - left. rewrite lookup_insert_eq. eauto.
Qed.

Lemma define_keeps name definition options db k :
  registered k db <> Missing ->
  registered k (define name definition options db).2 <> Missing.
Proof.
  rewrite !registered_taken. intros [K | K]; [| by right]. left.
  destruct (define_models name definition options db) as [E | [_ [m E]]];
    rewrite E; [done |].
  rewrite lookup_insert. case_decide; [eauto | done].
Qed.

Lemma _insert_models handle arg db :
  models (_insert handle arg db).2 = models db.
Proof.
  unfold _insert. destruct handle as [h|]; [| done].
  destruct (collections db !! h) as [c|]; [| done].
  by destruct (loki_insert arg c).
Qed.

(** The writes leave the registry alone. *)
Lemma insert_models name object db :
  models (insert name object db).2 = models db.
Proof.
  unfold insert, mbind, the_model, lift.
  destruct (models db !! name) as [m|]; [| done].
  destruct (for_each _ _ _); [| done]. apply _insert_models.
Qed.

Lemma update_models name object db :
  models (update name object db).2 = models db.
Proof. apply update_written. Qed.

(** A name that is taken stays taken. *)
Lemma after_all_keeps db ops k :
  registered k db <> Missing -> registered k (after_all db ops) <> Missing.
Proof.
  unfold after_all. revert db.
  induction ops as [|op ops IH]; intros db K; simpl; [done |].
  apply IH. destruct op; simpl.
  - by apply define_keeps.
  - unfold registered. by rewrite insert_models.
  - unfold registered. by rewrite update_models.
Qed.

(** C5.  After a first call of [define] with a name, whatever its outcome
    and whatever calls follow it, a second call of [define] with that name
    throws the redefinition error and leaves the database as it found it:
    the registered definition (rules, default template, unique properties,
    strictness, collection) and the collections with their documents. *)
Theorem define_twice name definition1 options1 ops definition2 options2 db :
  let db1 := after_all (define name definition1 options1 db).2 ops in
  define name definition2 options2 db1
  = (Throw (RedefinitionError name), db1).
Proof.
  intros db1. apply define_taken, after_all_keeps, define_registers.
Qed.


(** C10.  When [define] throws the reserved-field error, the entry of the
    name is in the registry, with [null] for its collection: [getModel]
    returns [null], and every later [define] with that name throws the
    redefinition error. *)
Theorem reserved_failure_leaves_entry name definition options prop db db' :
  define name definition options db = (Throw (ReservedFieldError prop), db') ->
  (exists m, models db' !! name = Some m /\ _collection m = None)
  /\ getModel name db' = RefNull
  /\ (forall definition' options',
        define name definition' options' db'
        = (Throw (RedefinitionError name), db')).
Proof.
  intros D.
  assert (exists m, models db' !! name = Some m /\ _collection m = None)
    as (m & E & C).
  { destruct (registered name db) eqn:R.
    - rewrite define_taken in D by by rewrite R. congruence.
    - rewrite define_taken in D by by rewrite R. congruence.
    - rewrite define_fresh in D by done. cbv zeta in D.
      repeat case_match; simplify_eq; simpl; rewrite ?lookup_insert_eq;
        eauto. }
  split_and!.
  - eauto.
  - unfold getModel. rewrite (proj2 (registered_Own _ _ _) E). by rewrite C.
  - intros. apply define_taken.
    by rewrite (proj2 (registered_Own _ _ _) E).
Qed.





(** The entry that a successful [define] leaves in the registry. *)
Lemma define_model name definition options db handle db' :
  define name definition options db = (Ok handle, db') ->
  handle = name /\
  models db' !! name
  = Some (with_collection
            (compile definition (empty_model (allowExtraProperties options)))
            (Some name))
  /\ is_Some (collections db' !! name).
Proof.
  intros D. destruct (registered name db) eqn:R.
  - rewrite define_taken in D by by rewrite R. congruence.
  - rewrite define_taken in D by by rewrite R. congruence.
  - rewrite define_fresh in D by done. cbv zeta in D.
    repeat case_match; simplify_eq; simpl; rewrite !lookup_insert_eq; eauto.
Qed.


End DefineFacts.

Section MoreFacts.
Context `{Host} `{Store}.
Implicit Types (m : model) (obj object : value) (k prop name : string).
Implicit Types (db : jotnar).





End MoreFacts.

Section CoercionFacts.
Context `{Host}.

Lemma FLOAT_twice x : (let* y := FLOAT x in FLOAT y) = FLOAT x.
Proof.
  unfold FLOAT. destruct (is_nullish x); simpl; [done |].
  destruct (Number_of x); simpl; [| done].
  by rewrite parseFloat_fixed.
Qed.

Lemma INTEGER_twice x :
  (let* y := INTEGER x in INTEGER y)
  = (let* y := INTEGER x in Ok (positive_zero_value y)).
Proof.
  unfold INTEGER. destruct (is_nullish x); simpl; [done |].
  destruct (Number_of x); simpl; [| done].
  by rewrite parseInt_twice.
Qed.

Lemma STRING_twice x : (let* y := STRING x in STRING y) = STRING x.
Proof.
  unfold STRING. destruct (is_nullish x); simpl; [done |].
  by destruct (toString x).
Qed.

Lemma BOOLEAN_twice x : (let* y := BOOLEAN x in BOOLEAN y) = BOOLEAN x.
Proof.
  unfold BOOLEAN. destruct (is_nullish x); simpl; [done |].
  by destruct (ToBoolean x).
Qed.

(** C3, as amended.  For ANY, FLOAT, STRING and BOOLEAN, applying the
    coercion twice gives what applying it once gives.  For INTEGER the two
    results are the same up to the sign of a zero: INTEGER can return -0, as
    it does on -0.5, and the second application turns it into +0.  A
    coercion that throws on a value throws when it is applied twice. *)
Theorem coercion_twice name (f : value -> res value) x :
  In (name, f) _types -> name <> "DATE" ->
  (name <> "INTEGER" -> (let* y := f x in f y) = f x) /\
  (name = "INTEGER" ->
   (let* y := f x in f y) = (let* y := f x in Ok (positive_zero_value y))).
Proof.
  intros I D. simpl in I.
  destruct I as [I|[I|[I|[I|[I|[I|[]]]]]]]; injection I as <- <-;
    try done; split; try done; intros _.
  - apply INTEGER_twice.
  - apply FLOAT_twice.
  - apply STRING_twice.
  - apply BOOLEAN_twice.
Qed.

(** C4, as amended.  Each built-in coercion returns [null] on [null].  On
    [undefined], INTEGER, FLOAT, STRING, BOOLEAN and DATE return [null] and
    ANY returns [undefined].  On a primitive or a date, a coercion returns a
    value, which is of its kind (a number, a string, a boolean or a date)
    when the argument is neither [null] nor [undefined], but for INTEGER,
    FLOAT and DATE on a symbol and DATE on a BigInt, which throw a
    [TypeError]. *)
Theorem coercion_of_null name (f : value -> res value) x :
  In (name, f) _types ->
  primitive_or_date x = true ->
  f VNull = Ok VNull
  /\ f VUndefined = Ok (if decide (name = "ANY") then VUndefined else VNull)
  /\ (if throws_on name x then f x = Throw TypeError
      else exists r, f x = Ok r
                     /\ (is_nullish x = false -> result_kind name r)).
Proof.
  intros I P. simpl in I.
  destruct I as [I|[I|[I|[I|[I|[I|[]]]]]]]; injection I as <- <-;
    (split_and!; [done | done |]);
    destruct x as [| |[]| | | | | | |]; try done; simpl;
    unfold result_kind; simpl; eauto.
  all: eexists; split; [reflexivity | done].
Qed.

End CoercionFacts.

Section Witnesses.
#[local] Existing Instance example_host.
#[local] Existing Instance example_store.

(** The batch [[{ age: "10" }, { age: null }]] on a model that declares
    [age: { type: INTEGER, allowNull: false }]. *)
Lemma insert_batch_atomic_witness :
  models people_db !! "people" = Some people_model
  /\ In (VObj [("age", VNull)]) age_batch
  /\ toInsert people_model "people" (VObj [("age", VNull)])
     = Throw (NotNullConstraintError "age" "people")
  /\ exists e obj',
       In obj' age_batch /\ toInsert people_model "people" obj' = Throw e
       /\ insert "people" (VArr age_batch) people_db = (Throw e, people_db).
Proof.
  assert (H1 : models people_db !! "people" = Some people_model)
    by reflexivity.
  assert (H2 : In (VObj [("age", VNull)]) age_batch) by (simpl; tauto).
  assert (H3 : toInsert people_model "people" (VObj [("age", VNull)])
               = Throw (NotNullConstraintError "age" "people"))
    by reflexivity.
  split_and!; [exact H1 | exact H2 | exact H3 |].
  exact (insert_batch_atomic "people" people_model age_batch _ "age"
           people_db H1 H2 H3).
Defined.



(** A property [constructor] declared with [allowNull: false]: without it,
    the raw document [{ title: "a" }] passes the check of [update], which
    reads the inherited member, and fails the check of [insert], whose
    document has the default [null]. *)
Example update_reads_inherited_member :
  toUpdate constructor_model "books" (VObj [("title", VStr "a")])
  = Ok [("title", VStr "a")]
  /\ toInsert constructor_model "books" (VObj [("title", VStr "a")])
     = Throw (NotNullConstraintError "constructor" "books").
Proof. split; reflexivity. Qed.

(** [INTEGER(-0.5)] is -0, and [INTEGER(-0)] is +0. *)
Lemma INTEGER_not_idempotent :
  In ("INTEGER", INTEGER) _types
  /\ INTEGER (VNum minus_half) = Ok (VNum (Zero true))
  /\ INTEGER (VNum (Zero true)) = Ok (VNum (Zero false))
  /\ (let* y := INTEGER (VNum minus_half) in INTEGER y)
     <> INTEGER (VNum minus_half).
Proof.
  split_and!; [simpl; tauto | reflexivity | reflexivity |].
  intros E. vm_compute in E. discriminate E.
Qed.

Lemma coercion_twice_witness :
  In ("INTEGER", INTEGER) _types
  /\ "INTEGER" <> "DATE"
  /\ ("INTEGER" <> "INTEGER" ->
      (let* y := INTEGER (VNum minus_half) in INTEGER y)
      = INTEGER (VNum minus_half))
  /\ ("INTEGER" = "INTEGER" ->
      (let* y := INTEGER (VNum minus_half) in INTEGER y)
      = (let* y := INTEGER (VNum minus_half) in
         Ok (positive_zero_value y))).
Proof.
  assert (H1 : In ("INTEGER", INTEGER) _types) by (simpl; tauto).
  assert (H2 : "INTEGER" <> "DATE") by discriminate.
  refine (conj H1 (conj H2 _)).
  exact (coercion_twice "INTEGER" INTEGER (VNum minus_half) H1 H2).
Defined.

(** [ANY(undefined)] is [undefined]. *)
Lemma ANY_of_undefined :
  In ("ANY", ANY) _types /\ ANY VUndefined = Ok VUndefined
  /\ ANY VUndefined <> Ok VNull.
Proof. split_and!; [simpl; tauto | reflexivity | discriminate]. Qed.

(** [DATE] on the BigInt 5. *)
Lemma coercion_of_null_witness :
  In ("DATE", DATE) _types
  /\ primitive_or_date (VBigInt 5) = true
  /\ DATE VNull = Ok VNull
  /\ DATE VUndefined = Ok VNull
  /\ DATE (VBigInt 5) = Throw TypeError.
Proof.
  assert (H1 : In ("DATE", DATE) _types) by (simpl; tauto).
  assert (H2 : primitive_or_date (VBigInt 5) = true) by reflexivity.
  refine (conj H1 (conj H2 _)).
  exact (coercion_of_null "DATE" DATE (VBigInt 5) H1 H2).
Defined.

(** The coercions on a symbol and on a BigInt. *)
Example coercion_of_symbol :
  ANY (VSymbol "id") = Ok (VSymbol "id")
  /\ INTEGER (VSymbol "id") = Throw TypeError
  /\ FLOAT (VSymbol "id") = Throw TypeError
  /\ STRING (VSymbol "id") = Ok (VStr "Symbol(id)")
  /\ BOOLEAN (VSymbol "id") = Ok (VBool true)
  /\ DATE (VSymbol "id") = Throw TypeError
  /\ INTEGER (VBigInt (-12)) = Ok (VNum (number_of_Z (-12)))
  /\ STRING (VBigInt (-12)) = Ok (VStr "-12")
  /\ BOOLEAN (VBigInt 0) = Ok (VBool false).
Proof. repeat split. Qed.





(** The document that this call hands to the store, under
    [allowExtraProperties: true] and in strict mode. *)
Example extra_kept_example :
  (insert "things" (VObj extra_document) loose_db).1
  = Ok (VArr [VObj [("declaredProp", VNum (number_of_Z 1));
                    ("level", VNum (number_of_Z 5));
                    ("extra", VStr "x")]]).
Proof. reflexivity. Qed.

Example extra_dropped_example :
  (insert "things" (VObj extra_document) strict_db).1
  = Ok (VArr [VObj [("declaredProp", VNum (number_of_Z 1));
                    ("level", VNum (number_of_Z 5))]]).
Proof. reflexivity. Qed.




Lemma reserved_failure_leaves_entry_witness :
  define "log" reserved_definition VUndefined constructor
  = (Throw (ReservedFieldError "meta"), reserved_db)
  /\ (exists m, models reserved_db !! "log" = Some m /\ _collection m = None)
  /\ getModel "log" reserved_db = RefNull
  /\ (forall definition' options',
        define "log" definition' options' reserved_db
        = (Throw (RedefinitionError "log"), reserved_db)).
Proof.
  assert (H1 : define "log" reserved_definition VUndefined constructor
               = (Throw (ReservedFieldError "meta"), reserved_db))
    by reflexivity.
  split; [exact H1 |].
  exact (reserved_failure_leaves_entry "log" reserved_definition VUndefined
           "meta" constructor reserved_db H1).
Defined.

(** How numbers print and how the coercions read them. *)
Example print_examples :
  NumberToString (number_of_Z 30) = "30"
  /\ NumberToString minus_half = "-0.5"
  /\ NumberToString (decimal 123456 (-3)) = "123.456"
  /\ NumberToString (decimal 5 (-7)) = "5e-7"
  /\ NumberToString (decimal 1 20) = "100000000000000000000"
  /\ NumberToString (decimal 15 20) = "1.5e+21".
Proof. repeat split. Qed.

Example coercion_examples :
  INTEGER (VStr "30") = Ok (VNum (number_of_Z 30))
  /\ INTEGER (VStr " 12.7 ") = Ok (VNum (number_of_Z 12))
  /\ INTEGER (VStr "0x1F") = Ok (VNum (number_of_Z 31))
  /\ INTEGER (VStr "not-a-number") = Ok (VNum NaN)
  /\ INTEGER (VNum (decimal 15 20)) = Ok (VNum (number_of_Z 1))
  /\ INTEGER (VObj [("toString", VNull)]) = Throw TypeError
  /\ FLOAT (VStr "3.50") = Ok (VNum (decimal 35 (-1)))
  /\ FLOAT (VNum (Zero true)) = Ok (VNum (Zero false))
  /\ STRING (VArr [VNum (number_of_Z 1); VNull; VBool true])
     = Ok (VStr "1,,true")
  /\ STRING (VObj [("a", VNull)]) = Ok (VStr "[object Object]")
  /\ BOOLEAN (VStr "false") = Ok (VBool true)
  /\ DATE (VNum (decimal 15 (-1))) = Ok (VDate (number_of_Z 1)).
Proof. repeat split. Qed.

(** The two ways of allowing extra properties, and the default. *)
Example allowExtraProperties_examples :
  allowExtraProperties VUndefined = VUndefined
  /\ allowExtraProperties (VBool false) = VUndefined
  /\ allowExtraProperties (VBool true) = VBool true
  /\ allowExtraProperties
       (VObj [("autoUpdate", VBool true);
              ("allowExtraProperties", VBool true)]) = VBool true.
Proof. repeat split. Qed.

(** The first example of the specification: [insert({ age: "30" })] stores
    the integer 30. *)
Example insert_age_30 :
  (insert "people" (VObj [("age", VStr "30")]) people_db).1
  = Ok (VArr [VObj [("age", VNum (number_of_Z 30))]]).
Proof. reflexivity. Qed.

End Witnesses.

(** * More of the code *)

(** ** The registry and [define] *)

Section RegistryFacts.
Context `{Host} `{Store}.
Implicit Types (m : model) (k prop name : string).
Implicit Types (db : jotnar).

Lemma define_models_other name definition options db k :
  k <> name ->
  models (define name definition options db).2 !! k = models db !! k.
Proof.
  intros N.
  destruct (define_models name definition options db) as [E | [_ [m E]]];
    rewrite E; [done | by rewrite lookup_insert_ne].
Qed.

Lemma after_entry db op k m :
  models db !! k = Some m -> models (after db op) !! k = Some m.
Proof.
  intros K. destruct op as [name definition options| |]; simpl.
  - destruct (decide (k = name)) as [->|N].
    + rewrite define_taken; [done |].
      by rewrite (proj2 (registered_Own _ _ _) K).
    + by rewrite define_models_other.
  - by rewrite insert_models.
  - by rewrite update_models.
Qed.

Lemma after_all_entry db ops k m :
  models db !! k = Some m -> models (after_all db ops) !! k = Some m.
Proof.
  unfold after_all. revert db.
  induction ops as [|op ops IH]; intros db K; simpl; [done |].
  by apply IH, after_entry.
Qed.

(** X1.  An entry of the registry never changes once a call of [define] has
    returned or thrown: whatever calls of [define], [insert] and [update]
    follow, with this name or with others, the name has the same entry. *)
Theorem registry_entry_immutable db ops k m :
  models db !! k = Some m -> models (after_all db ops) !! k = Some m.
Proof. apply after_all_entry. Qed.

(** X2.  For a name that no call of [define] was made with, whatever other
    calls were made, [getModel] returns [null]; but for the name of a member
    of [Object.prototype], which the read of the registry finds, it returns
    [undefined], the property [_collection] of that member. *)
Theorem getModel_undefined db ops name :
  models db !! name = None ->
  Forall (fun op => ~ defines name op) ops ->
  getModel name (after_all db ops)
  = if bool_decide (name ∈ Object_prototype) then RefUndefined else RefNull.
Proof.
  intros M F. unfold getModel, registered.
  assert (models (after_all db ops) !! name = None) as ->.
  2:{ unfold member_of. by case_bool_decide. }
  unfold after_all. revert db M.
  induction F as [|op ops N F IH]; intros db M; simpl; [done |].
  apply IH. destruct op as [name' definition options| |]; simpl.
  - rewrite define_models_other; [done |]. simpl in N. congruence.
  - by rewrite insert_models.
  - by rewrite update_models.
Qed.

(** X3.  The handle that a successful [define] returns is the collection of
    that name, the collection is in the store, and [getModel] returns that
    handle, also after any later calls. *)
Theorem getModel_after_define name definition options db handle db' ops :
  define name definition options db = (Ok handle, db') ->
  handle = name
  /\ is_Some (collections db' !! handle)
  /\ getModel name (after_all db' ops) = RefCollection handle.
Proof.
  intros D. destruct (define_model _ _ _ _ _ _ D) as (-> & M & G).
  split_and!; [done | done |].
  unfold getModel.
  rewrite (proj2 (registered_Own _ _ _) (after_all_entry _ ops _ _ M)).
  done.
Qed.







(** X5.  A successful [define] asks the store for the collection of the
    name once.  When the store has it, [define] keeps it, sets its
    [uniqueNames] and creates nothing.  When it does not, [define] creates it
    with the options to which it has added [unique], the unique properties,
    and then sets [uniqueNames]. *)
Theorem define_store_calls name definition options db handle db' m :
  define name definition options db = (Ok handle, db') ->
  models db' !! name = Some m ->
  match collections db !! name with
  | Some c =>
      collections db' = <[name := set_uniqueNames (_unique m) c]> (collections db)
      /\ calls db' = calls db ++ [GetCollection name]
  | None =>
      exists options' c,
        assign_unique (default_options options) (_unique m) = Ok options'
        /\ new_collection name options' = Ok c
        /\ collections db'
           = <[name := set_uniqueNames (_unique m) c]> (collections db)
        /\ calls db' = calls db ++ [GetCollection name;
                                    AddCollection name options']
  end.
Proof.
  intros D M. destruct (define_model _ _ _ _ _ _ D) as (-> & M' & _).
  rewrite M in M'. injection M' as ->.
  destruct (registered name db) eqn:E.
  - rewrite define_taken in D by by rewrite E. congruence.
  - rewrite define_taken in D by by rewrite E. congruence.
  - rewrite define_fresh in D by done. cbv zeta in D. simpl.
    repeat case_match; simplify_eq; simpl; eauto 10.
Qed.

End RegistryFacts.

(** ** The documents of [insert] and [update] *)

Section OrderFacts.
Context {A : Type}.
Implicit Types (o : list (string * A)) (k : string).





End OrderFacts.

Section DocumentExtras.
Context `{Host} `{Store}.
Implicit Types (m : model) (obj object : value) (k prop name : string).
Implicit Types (db : jotnar).



Lemma default_of_defined d : default_of d <> VUndefined.
Proof. destruct d as [d|f]; simpl; [by destruct (defaultValue d) | done]. Qed.









End DocumentExtras.

(** ** The calls of [insert] and [update] to the store *)

Section WriteExtras.
Context `{Host} `{Store}.
Implicit Types (m : model) (obj object : value) (k prop name : string).
Implicit Types (db : jotnar).

Lemma insert_loop_succeeds m name objs ds acc :
  Forall2 (fun obj d => toInsert m name obj = Ok d) objs ds ->
  for_each objs
    (fun listToInsert obj =>
       let* toInsert := toInsert m name obj in
       Ok (listToInsert ++ [VObj toInsert]))
    acc = Ok (acc ++ (VObj <$> ds)).
Proof.
  intros F. revert acc.
  induction F as [|obj d objs ds T F IH]; intros acc; simpl.
  - by rewrite app_nil_r.
  - rewrite T. simpl. rewrite IH. by rewrite <- app_assoc.
Qed.

(** X6.  When every raw document gives a document, [insert] calls the insert
    primitive of the store once, with the array of these documents in the
    order of the raw ones (one document for a raw document that is not an
    array), and returns what the primitive returns. *)
Theorem insert_hands_batch name m handle c object ds db :
  models db !! name = Some m ->
  _collection m = Some handle ->
  collections db !! handle = Some c ->
  Forall2 (fun obj d => toInsert m name obj = Ok d) (as_list object) ds ->
  let arg := VArr (VObj <$> ds) in
  insert name object db
  = ((loki_insert arg c).1,
     {| models := models db;
        collections := <[handle := (loki_insert arg c).2]> (collections db);
        calls := calls db ++ [Insert handle arg] |}).
Proof.
  intros M C G F arg. unfold insert, mbind, the_model, lift. rewrite M.
  change (match object with VArr l => l | _ => [object] end)
    with (as_list object).
  rewrite (insert_loop_succeeds m name _ ds []) by done. simpl.
  unfold _insert. rewrite C, G. fold arg. by destruct (loki_insert arg c).
Qed.

(** X12.  When the document of a raw document that is not an array cannot
    be built, [update] throws that error and leaves the database as it was:
    the update primitive of the store has not been called. *)
Theorem update_rejected name m object e db :
  models db !! name = Some m ->
  is_array object = false ->
  toUpdate m name object = Throw e ->
  update name object db = (Throw e, db).
Proof.
  intros M A T. rewrite update_unfold. unfold mbind, the_model, lift.
  rewrite M. unfold updated_document. rewrite T.
  by destruct object.
Qed.

(** X13.  [update(null)] and [update(undefined)] throw and leave the
    database as it was. *)
Theorem update_of_null name object db :
  is_nullish object = true ->
  exists e, update name object db = (Throw e, db).
Proof.
  intros N. rewrite update_unfold. unfold mbind, the_model, lift.
  destruct (models db !! name) as [m|]; [| eauto].
  unfold updated_document.
  destruct object; try done;
    (destruct (toUpdate m name _) as [u|e]; simpl; eauto).
Qed.

(** X14.  When the document of a raw document that is not an array is
    built, [update] calls the update primitive of the store once and returns
    what it returns; the document it hands over has [meta] and [$loki] as the
    raw document has them, also in strict mode, and otherwise the properties
    that were built. *)
Theorem update_hands_document name m handle c object u meta loki db :
  models db !! name = Some m ->
  _collection m = Some handle ->
  collections db !! handle = Some c ->
  is_array object = false ->
  toUpdate m name object = Ok u ->
  get_prop object "meta" = Ok meta ->
  get_prop object "$loki" = Ok loki ->
  exists doc,
    (forall k, get doc k = if decide (k = "$loki") then Some loki
                           else if decide (k = "meta") then Some meta
                           else get u k)
    /\ update name object db
       = ((loki_update (VObj doc) c).1,
          {| models := models db;
             collections :=
               <[handle := (loki_update (VObj doc) c).2]> (collections db);
             calls := calls db ++ [Update handle (VObj doc)] |}).
Proof.
  intros M C G A T Me Lo.
  exists (obj_set "$loki" loki (obj_set "meta" meta u)). split.
  - intros k. rewrite !get_obj_set.
    repeat case_decide; subst; done.
  - rewrite (update_document name m handle c) by done.
    unfold updated_document. by rewrite T, Me, Lo.
Qed.

(** The writes of [insert] are writes on the collection of the model. *)
Lemma insert_written name object db :
  written name db (insert name object db).2.
Proof.
  unfold insert, mbind, the_model, lift.
  destruct (models db !! name) as [m|] eqn:M; [| apply written_refl].
  destruct (for_each _ _ _); [| apply written_refl]. unfold _insert.
  destruct (_collection m) as [handle|] eqn:C; [| apply written_refl].
  destruct (collections db !! handle); [| apply written_refl].
  destruct (loki_insert _ _). by eapply written_primitive.
Qed.

(** X15.  [insert] and [update] on a model leave every other collection of
    the store as it was, whether they return or throw. *)
Theorem writes_touch_one_collection name m handle object db :
  models db !! name = Some m ->
  _collection m = Some handle ->
  forall other, other <> handle ->
    collections (insert name object db).2 !! other = collections db !! other
    /\ collections (update name object db).2 !! other = collections db !! other.
Proof.
  intros M C other N.
  assert (forall m', models db !! name = Some m' ->
                     _collection m' <> Some other) as O.
  { intros m' M'. rewrite M in M'. injection M' as <-. congruence. }
  split.
  - by apply (insert_written name object db).
  - by apply (update_written name object db).
Qed.

End WriteExtras.

(** ** The names of [Object.prototype] *)

Section InheritedNames.
Context `{Host} `{Store}.
Implicit Types (m : model) (obj object : value) (k prop name : string).
Implicit Types (db : jotnar).

(** X23.  No model is ever defined under the name of a member of
    [Object.prototype]: whatever calls are made, the registry has no entry
    of that name, [getModel] returns [undefined] for it, and [define] with
    it throws the redefinition error and leaves the database as it was. *)
Theorem inherited_name_never_defined db ops name :
  name ∈ Object_prototype ->
  models db !! name = None ->
  models (after_all db ops) !! name = None
  /\ getModel name (after_all db ops) = RefUndefined
  /\ (forall definition options,
        define name definition options (after_all db ops)
        = (Throw (RedefinitionError name), after_all db ops)).
Proof.
  intros P M.
  assert (forall db', registered name db' <> Missing) as T
    by (intros db'; apply registered_taken; by right).
  assert (models (after_all db ops) !! name = None) as N.
  { unfold after_all. revert db M.
    induction ops as [|op ops IH]; intros db M; simpl; [done |].
    apply IH. destruct op as [name' definition options| |]; simpl.
    - destruct (decide (name = name')) as [<-|Ne].
      + by rewrite define_taken.
      + by rewrite define_models_other.
    - by rewrite insert_models.
    - by rewrite update_models. }
  split_and!.
  - done.
  - unfold getModel, registered, member_of. rewrite N.
    by rewrite bool_decide_eq_true_2.
  - intros. by apply define_taken.
Qed.

(** The loop over the raw document throws when it meets a key that is not
    declared and is the name of a member of [Object.prototype]. *)
Lemma assign_loop_inherited m obj ks s k :
  In k ks -> k ∈ Object_prototype -> get (_scheme m) k = None ->
  exists e, for_each ks (assign m obj) s = Throw e.
Proof.
  intros I P G. revert s.
  induction ks as [|x ks IH]; intros s; [done |]. simpl.
  destruct (assign m obj s x) as [s'|e] eqn:E; simpl; [| eauto].
  destruct I as [-> | I]; [| by apply IH].
  unfold assign in E.
  by rewrite (proj2 (read_Inherited _ _) (conj G P)) in E.
Qed.

(** X24.  A raw document with a property that is not declared and has the
    name of a member of [Object.prototype] ([toString], [constructor], ...)
    is rejected, whether the model allows extra properties or not: [insert]
    and [update] throw and leave the database as it was. *)
Theorem inherited_key_rejected name m obj k db :
  models db !! name = Some m ->
  is_array obj = false ->
  In k (own_keys obj) ->
  k ∈ Object_prototype ->
  get (_scheme m) k = None ->
  (exists e, insert name obj db = (Throw e, db))
  /\ (exists e, update name obj db = (Throw e, db)).
Proof.
  intros M A I P G. split.
  - unfold insert, mbind, the_model, lift. rewrite M.
    assert (match obj with VArr l => l | _ => [obj] end = [obj]) as ->
      by by destruct obj.
    cbn [for_each]. rewrite toInsert_unfold.
    destruct (json_copy_object (_defaultObject m)) as [t0|e0];
      cbn [bind]; [| eauto].
    destruct (assign_loop_inherited m obj (own_keys obj) t0 k I P G)
      as [e ->].
    cbn [bind]. eauto.
  - rewrite update_unfold. unfold mbind, the_model, lift. rewrite M.
    unfold updated_document. rewrite toUpdate_unfold.
    destruct (assign_loop_inherited m obj (own_keys obj) [] k I P G)
      as [e ->].
    cbn [bind]. exists e. by destruct obj.
Qed.

(** X25.  Every failure of [define] with a name that is not taken leaves the
    entry of the name in the registry, with [null] for its collection:
    [getModel] returns [null] and the name cannot be defined again. *)
Theorem define_failure_leaves_entry name definition options db e db' :
  models db !! name = None ->
  name ∉ Object_prototype ->
  define name definition options db = (Throw e, db') ->
  (exists m, models db' !! name = Some m /\ _collection m = None)
  /\ getModel name db' = RefNull
  /\ (forall definition' options',
        define name definition' options' db'
        = (Throw (RedefinitionError name), db')).
Proof.
  intros M P D.
  assert (exists m, models db' !! name = Some m /\ _collection m = None)
    as (m & E & C).
  { rewrite define_fresh in D by by apply registered_Missing.
    cbv zeta in D.
    repeat case_match; simplify_eq; simpl; rewrite ?lookup_insert_eq;
      eauto. }
  split_and!.
  - eauto.
  - unfold getModel. rewrite (proj2 (registered_Own _ _ _) E). by rewrite C.
  - intros. apply define_taken.
    by rewrite (proj2 (registered_Own _ _ _) E).
Qed.

End InheritedNames.

(** ** [serializeReplacer] under [JSON.stringify] *)

Section SnapshotFacts.
Context `{Host}.

Lemma snapshot_arr key l :
  key ∉ nulled_keys -> key ∉ omitted_keys ->
  snapshot key (VArr l)
  = (let* l' := snapshot_elements 0 l in Ok (Some (VArr l'))).
Proof.
  intros Kn Ko. simpl. by rewrite !bool_decide_eq_false_2 by done.
Qed.

Lemma snapshot_obj key o :
  key ∉ nulled_keys -> key ∉ omitted_keys ->
  snapshot key (VObj o)
  = (let* o' := snapshot_properties o in Ok (Some (VObj o'))).
Proof.
  intros Kn Ko. simpl. by rewrite !bool_decide_eq_false_2 by done.
Qed.

(** The equation of [JSON.stringify]: the replacer is applied to the value,
    after [toJSON], and what it returns is serialized. *)
Lemma snapshot_replacer key v :
  snapshot key v = serialize (serializeReplacer key (toJSON v)).
Proof.
  unfold serializeReplacer.
  destruct v; simpl; repeat case_bool_decide; try done;
    repeat case_match; done.
Qed.

Lemma scrubbed_arr l : scrubbed (VArr l) = forallb scrubbed l.
Proof. simpl. induction l as [|x l IHl]; simpl; [done | by rewrite IHl]. Qed.

Lemma scrubbed_obj o :
  scrubbed (VObj o)
  = forallb (fun kv =>
               negb (bool_decide (kv.1 ∈ omitted_keys))
               && (negb (bool_decide (kv.1 ∈ nulled_keys))
                   || match kv.2 with VNull => true | _ => false end)
               && scrubbed kv.2) o.
Proof.
  simpl. induction o as [|[k x] o IHo]; simpl; [done | by rewrite IHo].
Qed.

Lemma snapshot_nulled key v r :
  key ∈ nulled_keys -> snapshot key v = Ok (Some r) -> r = VNull.
Proof.
  intros K. destruct v; simpl; rewrite bool_decide_eq_true_2 by done; congruence.
Qed.

Lemma replacer_keys_disjoint key :
  key ∈ nulled_keys -> key ∈ omitted_keys -> False.
Proof.
  unfold nulled_keys, omitted_keys.
  rewrite !elem_of_cons, !elem_of_nil. intuition congruence.
Qed.

Lemma snapshot_omitted key v : key ∈ omitted_keys -> snapshot key v = Ok None.
Proof.
  intros K.
  assert (key ∉ nulled_keys) as Kn
    by (intros Kn; by apply (replacer_keys_disjoint key)).
  destruct v; simpl;
    by rewrite (bool_decide_eq_false_2 _ Kn), (bool_decide_eq_true_2 _ K).
Qed.

(** X21.  In what [JSON.stringify] keeps of a value under
    [serializeReplacer], no object, at any depth, has a property [models],
    [TYPES], [throttledSavePending] or [throttledCallbacks], and every
    property [autosaveHandle], [persistenceAdapter], [constraints] or [ttl]
    is [null]: this holds for the fields of the stored documents too. *)
Theorem snapshot_scrubbed v : forall key r,
  snapshot key v = Ok (Some r) -> scrubbed r = true.
Proof.
  induction v as [| | b | x | s | s | n | t | l IH | o IH]
    using value_nested_ind;
    intros key r S;
    (destruct (decide (key ∈ nulled_keys)) as [Kn|Kn];
     [by rewrite (snapshot_nulled _ _ _ Kn S) |]);
    (destruct (decide (key ∈ omitted_keys)) as [Ko|Ko];
     [by rewrite (snapshot_omitted _ _ Ko) in S |]).
  1-8: simpl in S; rewrite !bool_decide_eq_false_2 in S by done;
       simplify_eq; try done; by repeat case_match.
  - rewrite snapshot_arr in S by done.
    destruct (snapshot_elements 0 l) as [l'|] eqn:E; simpl in S; [| done].
    injection S as <-. rewrite scrubbed_arr.
    revert l' E. generalize 0%nat.
    induction IH as [|x l Px _ IHl]; intros i l' E; simpl in E.
    + by injection E as <-.
    + destruct (snapshot (index_key i) x) as [y|] eqn:Ex; simpl in E; [| done].
      destruct (snapshot_elements (S i) l) as [r'|] eqn:Er; simpl in E;
        [| done].
      injection E as <-. simpl. rewrite (IHl _ _ Er), andb_true_r.
      destruct y as [y|]; [| done]. by apply (Px _ _ Ex).
  - rewrite snapshot_obj in S by done.
    destruct (snapshot_properties o) as [o'|] eqn:E; simpl in S; [| done].
    injection S as <-. rewrite scrubbed_obj.
    revert o' E.
    induction IH as [|[k x] o Px _ IHo]; intros o' E; simpl in E.
    + by injection E as <-.
    + simpl in Px.
      destruct (snapshot k x) as [y|] eqn:Ex; simpl in E; [| done].
      destruct (snapshot_properties o) as [r'|] eqn:Er; simpl in E; [| done].
      injection E as <-. specialize (IHo _ eq_refl).
      destruct y as [y|]; [| done]. simpl.
      rewrite IHo, (Px _ _ Ex), !andb_true_r.
      destruct (decide (k ∈ omitted_keys)) as [Ko'|Ko'].
      { by rewrite snapshot_omitted in Ex. }
      rewrite (bool_decide_eq_false_2 _ Ko'). simpl.
      destruct (decide (k ∈ nulled_keys)) as [Kn'|Kn'].
      * rewrite (snapshot_nulled _ _ _ Kn' Ex). by rewrite orb_true_r.
      * by rewrite (bool_decide_eq_false_2 _ Kn').
Qed.

Lemma index_key_plain i :
  (index_key i ∉ nulled_keys) /\ (index_key i ∉ omitted_keys).
Proof.
  unfold index_key. pose proof (digits_of_N_nonempty (N.of_nat i)) as NE.
  destruct (digits_of_N (N.of_nat i)) as [|d ds]; [done |].
  unfold nulled_keys, omitted_keys.
  rewrite !elem_of_cons, !elem_of_nil. simpl.
  split; intros E; destruct d; intuition discriminate.
Qed.

Lemma plain_arr l : plain (VArr l) = forallb plain l.
Proof. simpl. induction l as [|x l IHl]; simpl; [done | by rewrite IHl]. Qed.

Lemma plain_obj o :
  plain (VObj o)
  = forallb (fun kv =>
               negb (bool_decide (kv.1 ∈ omitted_keys))
               && negb (bool_decide (kv.1 ∈ nulled_keys))
               && plain kv.2) o.
Proof.
  simpl. induction o as [|[k x] o IHo]; simpl; [done | by rewrite IHo].
Qed.

(** X22.  A value in which none of these eight keys occurs, held under a key
    that is none of them, is serialized under [serializeReplacer] as it is
    without a replacer. *)
Theorem snapshot_plain v : forall key,
  key ∉ nulled_keys -> key ∉ omitted_keys -> plain v = true ->
  snapshot key v = json_copy v.
Proof.
  induction v as [| | b | x | s | s | n | t | l IH | o IH]
    using value_nested_ind;
    intros key Kn Ko Pl.
  1-8: (simpl; by rewrite !bool_decide_eq_false_2 by done).
  - rewrite snapshot_arr by done. simpl. f_equal.
    rewrite plain_arr in Pl. generalize 0%nat.
    induction IH as [|x l Px _ IHl]; intros i; [done |].
    simpl in Pl. apply andb_true_iff in Pl as [Px' Pl]. simpl.
    rewrite IHl by done.
    destruct (index_key_plain i). by rewrite Px.
  - rewrite snapshot_obj by done. simpl. f_equal.
    rewrite plain_obj in Pl.
    induction IH as [|[k x] o Px _ IHo]; [done |].
    simpl in Pl, Px.
    apply andb_true_iff in Pl as [[[K1 K2]%andb_true_iff Px']%andb_true_iff Pl].
    apply negb_true_iff, bool_decide_eq_false in K1, K2.
    simpl. rewrite IHo by done. by rewrite Px.
Qed.

End SnapshotFacts.

(** ** The coercions on numbers *)

Section CoercionExtras.
Context `{Host}.
#[local] Arguments String.append !_ _ / : simpl nomatch.
#[local] Arguments take_exponent : simpl never.
#[local] Arguments mk_number : simpl never.

Lemma parseInt_print_truncates neg ds n :
  normal_digits ds = true -> -6 < n <= 21 ->
  parseInt_string (print_number (Fin neg ds n))
  = mk_number neg (take (Z.to_nat n) ds) n.
Proof.
  intros N B. pose proof N as (d & r & -> & Z & L)%normal_digits_spec.
  rewrite print_number_Fin. cbv zeta.
  set (k := Z.of_nat (length (d :: r))).
  assert (K : k = Z.of_nat (length (d :: r))) by done.
  destruct ((k <=? n) && (n <=? 21)) eqn:C1;
    [| destruct ((0 <? n) && (n <=? 21)) eqn:C2;
       [| destruct ((-6 <? n) && (n <=? 0)) eqn:C3]].
  - apply andb_true_iff in C1 as [C1 _]. apply Z.leb_le in C1.
    unfold zeros.
    change ((d :: r) ++ ?z) with (d :: (r ++ z)). simpl string_of_digits.
    erewrite parseInt_string_digits; [| done |].
    2:{ change (String (ascii_of_digit d) (string_of_digits ?l))
          with (string_of_digits (d :: l)).
        apply span_digits_all. }
    change (d :: r ++ ?z) with ((d :: r) ++ z).
    rewrite take_ge by (simpl length in *; lia).
    rewrite mk_number_pad, mk_number_of_normal by done. f_equal.
    rewrite length_app, length_replicate. simpl length in *. lia.
  - assert (exists m, Z.to_nat n = S m /\ (S m < length (d :: r))%nat)
      as (m & Em & Lm).
    { exists (Z.to_nat (n - 1)).
      apply andb_true_iff in C2 as [C2 _]. apply Z.ltb_lt in C2.
      apply andb_false_iff in C1 as [C1 | C1];
        [apply Z.leb_gt in C1 | apply Z.leb_gt in C1];
        simpl length in *; lia. }
    rewrite Em.
    change (take (S m) (d :: r)) with (d :: take m r).
    simpl string_of_digits at 1.
    change (String (ascii_of_digit d) (string_of_digits (take m r)) +:+ ?s)
      with (String (ascii_of_digit d) (string_of_digits (take m r) +:+ s)).
    erewrite parseInt_string_digits; [| done |].
    2:{ change (String (ascii_of_digit d) (string_of_digits (take m r) +:+ ?s))
          with (string_of_digits (d :: take m r) +:+ s).
        rewrite span_digits_app. simpl. by rewrite app_nil_r. }
    f_equal. simpl. rewrite length_take. simpl in Lm. lia.
  - rewrite parseInt_string_zero_point.
    apply andb_true_iff in C3 as [_ C3]. apply Z.leb_le in C3.
    by replace (Z.to_nat n) with 0%nat by lia.
  - exfalso.
    apply andb_false_iff in C2 as [C2 | C2], C3 as [C3 | C3];
      try apply Z.ltb_ge in C2; try apply Z.leb_gt in C2;
      try apply Z.ltb_ge in C3; try apply Z.leb_gt in C3; lia.
Qed.

Lemma parseInt_print_exponent neg d r n :
  normal_digits (d :: r) = true -> n <= -6 \/ 21 < n ->
  parseInt_string (print_number (Fin neg (d :: r) n)) = Fin neg [d] 1.
Proof.
  intros N B. pose proof N as (d' & r' & [= <- <-] & Z & L)%normal_digits_spec.
  rewrite print_number_Fin. cbv zeta.
  assert ((Z.of_nat (length (d :: r)) <=? n) && (n <=? 21) = false) as ->.
  { apply andb_false_iff. destruct B; [left | right]; apply Z.leb_gt;
      simpl length; lia. }
  assert ((0 <? n) && (n <=? 21) = false) as ->.
  { apply andb_false_iff. destruct B; [left; apply Z.ltb_ge | right; apply Z.leb_gt]; lia. }
  assert ((-6 <? n) && (n <=? 0) = false) as ->.
  { apply andb_false_iff. destruct B; [left; apply Z.ltb_ge | right; apply Z.leb_gt]; lia. }
  change (string_of_digits [d] +:+ ?s)
    with (String (ascii_of_digit d) (EmptyString +:+ s)).
  clear N L B.
  destruct r as [|f r];
    erewrite parseInt_string_digits
      by (done || (simpl; rewrite digit_of_ascii_of_digit; reflexivity));
    (rewrite mk_number_of_normal; [done |]);
    (apply normal_digits_spec; exists d, []; by split_and!).
Qed.

(** X17.  On a number that prints without an exponent (below 1e21 and not
    below 1e-6 in magnitude), INTEGER keeps the digits in front of the decimal
    point and the sign: it truncates towards zero, to -0 for a negative
    number above -1. *)
Theorem INTEGER_truncates neg ds n :
  normal_digits ds = true -> -6 < n <= 21 ->
  INTEGER (VNum (Fin neg ds n))
  = Ok (VNum (mk_number neg (take (Z.to_nat n) ds) n)).
Proof.
  intros N B. unfold INTEGER, parseInt, NumberToString. simpl.
  rewrite mk_number_of_normal by done. do 2 f_equal.
  by apply parseInt_print_truncates.
Qed.

(** X18.  On a number that prints with an exponent (1e21 or more, or below
    1e-6, in magnitude), INTEGER returns its first digit, with its sign:
    [INTEGER(1.5e21)] is 1 and [INTEGER(5e-7)] is 5. *)
Theorem INTEGER_exponent_notation neg d r n :
  normal_digits (d :: r) = true -> n <= -6 \/ 21 < n ->
  INTEGER (VNum (Fin neg (d :: r) n)) = Ok (VNum (Fin neg [d] 1)).
Proof.
  intros N B. unfold INTEGER, parseInt, NumberToString. simpl.
  rewrite mk_number_of_normal by done. do 2 f_equal.
  by apply parseInt_print_exponent.
Qed.

(** The conversions throw nothing but a [TypeError]. *)
Lemma ToString_TypeError v : forall e, ToString v = Throw e -> e = TypeError.
Proof.
  induction v as [| | b | x | s | s | n | t | l IH | o IH]
    using value_nested_ind; intros e; simpl; try congruence.
  - by destruct b.
  - destruct ((fix elements (l : list value) : res (list string) := _) l)
      as [strings|e'] eqn:E; simpl; [done |].
    intros [= <-]. revert e' E.
    induction IH as [|x l Px _ IHl]; intros e' E; [done |].
    destruct (match x with
              | VUndefined | VNull => Ok EmptyString
              | _ => ToString x
              end) as [sx|ex] eqn:Ex; cbn [bind] in E.
    + destruct ((fix elements (l : list value) : res (list string) := _) l)
        as [strings|el]; cbn [bind] in E; [done |].
      injection E as <-. by apply IHl.
    + injection E as <-. destruct x; try done; by apply Px.
  - case_bool_decide; congruence.
Qed.

Lemma Number_of_TypeError v e : Number_of v = Throw e -> e = TypeError.
Proof.
  destruct v as [| |[]| | | | | | |]; unfold Number_of, ToNumber;
    try congruence.
  - destruct (ToString (VArr l)) eqn:E; cbn [bind]; [done |].
    intros [= <-]. by apply (ToString_TypeError (VArr l)).
  - destruct (ToString (VObj o)) eqn:E; cbn [bind]; [done |].
    intros [= <-]. by apply (ToString_TypeError (VObj o)).
Qed.

(** X16.  On a value that is neither [null] nor [undefined], INTEGER returns
    a number that is [NaN], a zero or an integer of at most 21 digits, or it
    throws a [TypeError]. *)
Theorem INTEGER_integer v :
  is_nullish v = false ->
  match INTEGER v with
  | Ok r => exists x, r = VNum x /\ is_integer_form x = true
  | Throw e => e = TypeError
  end.
Proof.
  intros N. unfold INTEGER. rewrite N.
  destruct (Number_of v) as [x|e] eqn:E; simpl.
  - eexists. split; [done |]. apply parseInt_print_form, normalize_normal.
  - by apply (Number_of_TypeError v).
Qed.

(** X19.  On a value that is neither [null] nor [undefined], FLOAT returns
    [Number(value)], with +0 for -0: printing the number and reading it back
    changes nothing else.  It throws when [Number(value)] does. *)
Theorem FLOAT_is_Number v :
  is_nullish v = false ->
  FLOAT v
  = (let* x := Number_of v in Ok (VNum (positive_zero (normalize x)))).
Proof.
  intros N. unfold FLOAT, parseFloat, NumberToString. rewrite N.
  destruct (Number_of v); simpl; [| done]. do 2 f_equal.
  apply parseFloat_print, normalize_normal.
Qed.

(** X20.  DATE applied twice gives what DATE applied once gives: a date is
    passed through. *)
Theorem DATE_twice v : (let* d := DATE v in DATE d) = DATE v.
Proof.
  assert (forall r, Date_new v = Ok r -> exists t, r = VDate t) as New.
  { unfold Date_new. intros r.
    destruct (ToPrimitive v) as [p|]; cbn [bind]; [| done].
    destruct p; try (destruct (ToNumber _); cbn [bind]);
      intros; simplify_eq; eauto. }
  unfold DATE. destruct (is_nullish v) eqn:N; [done |].
  destruct (match v with VDate _ => Ok v | _ => Date_new v end)
    as [r|e] eqn:E; [| done].
  assert (exists t, r = VDate t) as [t ->].
  { destruct v; try (by apply New); simplify_eq; eauto. }
  done.
Qed.

End CoercionExtras.

(** ** These properties on examples *)

Section MoreWitnesses.
#[local] Existing Instance example_host.
#[local] Existing Instance example_store.

Lemma registry_entry_immutable_witness :
  models people_db !! "people" = Some people_model
  /\ models (after_all people_db later_calls) !! "people" = Some people_model.
Proof.
  assert (H1 : models people_db !! "people" = Some people_model)
    by reflexivity.
  split; [exact H1 |].
  exact (registry_entry_immutable people_db later_calls "people" people_model
           H1).
Defined.

Lemma getModel_undefined_witness :
  models constructor !! "ghost" = None
  /\ Forall (fun op => ~ defines "ghost" op) other_calls
  /\ getModel "ghost" (after_all constructor other_calls)
     = if bool_decide ("ghost" ∈ Object_prototype)
       then RefUndefined else RefNull.
Proof.
  assert (H1 : models constructor !! "ghost" = None) by reflexivity.
  assert (H2 : Forall (fun op => ~ defines "ghost" op) other_calls).
  { repeat constructor; simpl; [discriminate | tauto]. }
  split_and!; [exact H1 | exact H2 |].
  exact (getModel_undefined constructor other_calls "ghost" H1 H2).
Defined.

(** [getModel('ghost')] and [getModel('toString')] on a new database. *)
Example getModel_examples :
  getModel "ghost" constructor = RefNull
  /\ getModel "toString" constructor = RefUndefined
  /\ getModel "people" people_db = RefCollection "people".
Proof. repeat split. Qed.

Lemma getModel_after_define_witness :
  define "people" age_definition VUndefined constructor
  = (Ok "people", people_db)
  /\ "people" = "people"
  /\ is_Some (collections people_db !! "people")
  /\ getModel "people" (after_all people_db later_calls)
     = RefCollection "people".
Proof.
  assert (H1 : define "people" age_definition VUndefined constructor
               = (Ok "people", people_db)) by reflexivity.
  split; [exact H1 |].
  exact (getModel_after_define "people" age_definition VUndefined constructor
           "people" people_db later_calls H1).
Defined.


Lemma define_store_calls_witness :
  define "things" level_definition VUndefined constructor
  = (Ok "things", strict_db)
  /\ models strict_db !! "things" = Some (things_model VUndefined)
  /\ exists options' c,
       assign_unique (default_options VUndefined)
         (_unique (things_model VUndefined)) = Ok options'
       /\ new_collection "things" options' = Ok c
       /\ collections strict_db
          = <["things" := set_uniqueNames (_unique (things_model VUndefined))
                            c]>
              (collections constructor)
       /\ calls strict_db
          = calls constructor ++ [GetCollection "things";
                                  AddCollection "things" options'].
Proof.
  assert (H1 : define "things" level_definition VUndefined constructor
               = (Ok "things", strict_db)) by reflexivity.
  assert (H2 : models strict_db !! "things" = Some (things_model VUndefined))
    by reflexivity.
  split_and!; [exact H1 | exact H2 |].
  exact (define_store_calls "things" level_definition VUndefined constructor
           "things" strict_db (things_model VUndefined) H1 H2).
Defined.

Lemma insert_hands_batch_witness :
  models people_db !! "people" = Some people_model
  /\ _collection people_model = Some "people"
  /\ collections people_db !! "people" = Some []
  /\ Forall2 (fun obj d => toInsert people_model "people" obj = Ok d)
       (as_list (VArr good_batch)) good_documents
  /\ insert "people" (VArr good_batch) people_db
     = ((loki_insert (VArr (VObj <$> good_documents)) []).1,
        {| models := models people_db;
           collections :=
             <["people" := (loki_insert (VArr (VObj <$> good_documents))
                              []).2]>
               (collections people_db);
           calls := calls people_db
                    ++ [Insert "people" (VArr (VObj <$> good_documents))] |}).
Proof.
  assert (H1 : models people_db !! "people" = Some people_model)
    by reflexivity.
  assert (H2 : _collection people_model = Some "people") by reflexivity.
  assert (H3 : collections people_db !! "people" = Some []) by reflexivity.
  assert (H4 : Forall2 (fun obj d => toInsert people_model "people" obj = Ok d)
                 (as_list (VArr good_batch)) good_documents)
    by (repeat constructor).
  split_and!; [exact H1 | exact H2 | exact H3 | exact H4 |].
  exact (insert_hands_batch "people" people_model "people" [] (VArr good_batch)
           good_documents people_db H1 H2 H3 H4).
Defined.






(** [update({})] on a model whose [age] may not be null. *)
Lemma update_rejected_witness :
  models people_db !! "people" = Some people_model
  /\ is_array (VObj []) = false
  /\ toUpdate people_model "people" (VObj [])
     = Throw (NotNullConstraintError "age" "people")
  /\ update "people" (VObj []) people_db
     = (Throw (NotNullConstraintError "age" "people"), people_db).
Proof.
  assert (H1 : models people_db !! "people" = Some people_model)
    by reflexivity.
  assert (H2 : is_array (VObj []) = false) by reflexivity.
  assert (H3 : toUpdate people_model "people" (VObj [])
               = Throw (NotNullConstraintError "age" "people"))
    by reflexivity.
  split_and!; [exact H1 | exact H2 | exact H3 |].
  exact (update_rejected "people" people_model (VObj []) _ people_db
           H1 H2 H3).
Defined.

Lemma update_of_null_witness :
  is_nullish VNull = true
  /\ exists e, update "things" VNull strict_db = (Throw e, strict_db).
Proof.
  assert (H1 : is_nullish VNull = true) by reflexivity.
  split; [exact H1 |].
  exact (update_of_null "things" VNull strict_db H1).
Defined.

Lemma update_hands_document_witness :
  models strict_db !! "things" = Some (things_model VUndefined)
  /\ _collection (things_model VUndefined) = Some "things"
  /\ collections strict_db !! "things" = Some []
  /\ is_array stored_document = false
  /\ toUpdate (things_model VUndefined) "things" stored_document
     = Ok [("level", VNum (number_of_Z 7))]
  /\ get_prop stored_document "meta" = Ok VNull
  /\ get_prop stored_document "$loki" = Ok (VNum (number_of_Z 1))
  /\ exists doc,
       (forall k, get doc k
                  = if decide (k = "$loki") then Some (VNum (number_of_Z 1))
                    else if decide (k = "meta") then Some VNull
                    else get [("level", VNum (number_of_Z 7))] k)
       /\ update "things" stored_document strict_db
          = ((loki_update (VObj doc) []).1,
             {| models := models strict_db;
                collections :=
                  <["things" := (loki_update (VObj doc) []).2]>
                    (collections strict_db);
                calls := calls strict_db ++ [Update "things" (VObj doc)] |}).
Proof.
  assert (H1 : models strict_db !! "things" = Some (things_model VUndefined))
    by reflexivity.
  assert (H2 : _collection (things_model VUndefined) = Some "things")
    by reflexivity.
  assert (H3 : collections strict_db !! "things" = Some []) by reflexivity.
  assert (H4 : is_array stored_document = false) by reflexivity.
  assert (H5 : toUpdate (things_model VUndefined) "things" stored_document
               = Ok [("level", VNum (number_of_Z 7))]) by reflexivity.
  assert (H6 : get_prop stored_document "meta" = Ok VNull) by reflexivity.
  assert (H7 : get_prop stored_document "$loki" = Ok (VNum (number_of_Z 1)))
    by reflexivity.
  split_and!;
    [exact H1 | exact H2 | exact H3 | exact H4 | exact H5 | exact H6
    | exact H7 |].
  exact (update_hands_document "things" (things_model VUndefined) "things" []
           stored_document _ _ _ strict_db H1 H2 H3 H4 H5 H6 H7).
Defined.

(** Writes on [people] in a database that also has the collection
    [things]. *)
Lemma writes_touch_one_collection_witness :
  models both_db !! "people" = Some people_model
  /\ _collection people_model = Some "people"
  /\ is_Some (collections both_db !! "things")
  /\ forall other, other <> "people" ->
       collections (insert "people" (VArr good_batch) both_db).2 !! other
       = collections both_db !! other
       /\ collections (update "people" (VArr good_batch) both_db).2 !! other
          = collections both_db !! other.
Proof.
  assert (H1 : models both_db !! "people" = Some people_model)
    by reflexivity.
  assert (H2 : _collection people_model = Some "people") by reflexivity.
  assert (H3 : is_Some (collections both_db !! "things"))
    by (eexists; reflexivity).
  refine (conj H1 (conj H2 (conj H3 _))).
  exact (writes_touch_one_collection "people" people_model "people"
           (VArr good_batch) both_db H1 H2).
Defined.

Lemma INTEGER_integer_witness :
  is_nullish (VStr "12.7") = false
  /\ match INTEGER (VStr "12.7") with
     | Ok r => exists x, r = VNum x /\ is_integer_form x = true
     | Throw e => e = TypeError
     end.
Proof.
  assert (H1 : is_nullish (VStr "12.7") = false) by reflexivity.
  split; [exact H1 |].
  exact (INTEGER_integer (VStr "12.7") H1).
Defined.

(** 12.7 is [Fin false [1; 2; 7] 2]. *)
Lemma INTEGER_truncates_witness :
  normal_digits [dg1; dg2; dg7] = true
  /\ -6 < 2 <= 21
  /\ INTEGER (VNum (Fin false [dg1; dg2; dg7] 2))
     = Ok (VNum (mk_number false (take (Z.to_nat 2) [dg1; dg2; dg7]) 2)).
Proof.
  assert (H1 : normal_digits [dg1; dg2; dg7] = true) by reflexivity.
  assert (H2 : -6 < 2 <= 21) by lia.
  refine (conj H1 (conj H2 _)).
  exact (INTEGER_truncates false [dg1; dg2; dg7] 2 H1 H2).
Defined.

(** 1.5e21 is [Fin false [1; 5] 22]. *)
Lemma INTEGER_exponent_notation_witness :
  normal_digits [dg1; dg5] = true
  /\ (22 <= -6 \/ 21 < 22)
  /\ INTEGER (VNum (Fin false [dg1; dg5] 22))
     = Ok (VNum (Fin false [dg1] 1)).
Proof.
  assert (H1 : normal_digits [dg1; dg5] = true) by reflexivity.
  assert (H2 : 22 <= -6 \/ 21 < 22) by lia.
  refine (conj H1 (conj H2 _)).
  exact (INTEGER_exponent_notation false dg1 [dg5] 22 H1 H2).
Defined.

Lemma FLOAT_is_Number_witness :
  is_nullish (VStr "-0") = false
  /\ FLOAT (VStr "-0")
     = (let* x := Number_of (VStr "-0") in
        Ok (VNum (positive_zero (normalize x)))).
Proof.
  assert (H1 : is_nullish (VStr "-0") = false) by reflexivity.
  split; [exact H1 |].
  exact (FLOAT_is_Number (VStr "-0") H1).
Defined.

Lemma snapshot_scrubbed_witness :
  snapshot EmptyString document_with_ttl
  = Ok (Some (VObj [("name", VStr "a"); ("ttl", VNull);
                    ("inner",
                     VArr [VObj [("age", VNum (number_of_Z 1))]])]))
  /\ scrubbed (VObj [("name", VStr "a"); ("ttl", VNull);
                     ("inner", VArr [VObj [("age", VNum (number_of_Z 1))]])])
     = true.
Proof.
  assert (H1 : snapshot EmptyString document_with_ttl
               = Ok (Some (VObj [("name", VStr "a"); ("ttl", VNull);
                                 ("inner",
                                  VArr [VObj [("age",
                                               VNum (number_of_Z 1))]])])))
    by reflexivity.
  split; [exact H1 |].
  exact (snapshot_scrubbed document_with_ttl EmptyString _ H1).
Defined.

Lemma snapshot_plain_witness :
  (EmptyString ∉ nulled_keys)
  /\ (EmptyString ∉ omitted_keys)
  /\ plain (VArr good_batch) = true
  /\ snapshot EmptyString (VArr good_batch) = json_copy (VArr good_batch).
Proof.
  assert (H1 : EmptyString ∉ nulled_keys)
    by (unfold nulled_keys; rewrite !elem_of_cons, elem_of_nil;
        intuition discriminate).
  assert (H2 : EmptyString ∉ omitted_keys)
    by (unfold omitted_keys; rewrite !elem_of_cons, elem_of_nil;
        intuition discriminate).
  assert (H3 : plain (VArr good_batch) = true) by reflexivity.
  split_and!; [exact H1 | exact H2 | exact H3 |].
  exact (snapshot_plain (VArr good_batch) EmptyString H1 H2 H3).
Defined.

Lemma inherited_name_never_defined_witness :
  ("toString" ∈ Object_prototype)
  /\ models constructor !! "toString" = None
  /\ models (after_all constructor inherited_calls) !! "toString" = None
  /\ getModel "toString" (after_all constructor inherited_calls)
     = RefUndefined
  /\ (forall definition options,
        define "toString" definition options
          (after_all constructor inherited_calls)
        = (Throw (RedefinitionError "toString"),
           after_all constructor inherited_calls)).
Proof.
  assert (H1 : "toString" ∈ Object_prototype).
  { unfold Object_prototype. rewrite !elem_of_cons. tauto. }
  assert (H2 : models constructor !! "toString" = None) by reflexivity.
  refine (conj H1 (conj H2 _)).
  exact (inherited_name_never_defined constructor inherited_calls "toString"
           H1 H2).
Defined.

(** [{ declaredProp: 1, toString: "x" }] on a model that allows extra
    properties. *)
Lemma inherited_key_rejected_witness :
  models loose_db !! "things" = Some (things_model (VBool true))
  /\ is_array (VObj toString_document) = false
  /\ In "toString" (own_keys (VObj toString_document))
  /\ ("toString" ∈ Object_prototype)
  /\ get (_scheme (things_model (VBool true))) "toString" = None
  /\ (exists e, insert "things" (VObj toString_document) loose_db
                = (Throw e, loose_db))
  /\ (exists e, update "things" (VObj toString_document) loose_db
                = (Throw e, loose_db)).
Proof.
  assert (H1 : models loose_db !! "things" = Some (things_model (VBool true)))
    by reflexivity.
  assert (H2 : is_array (VObj toString_document) = false) by reflexivity.
  assert (H3 : In "toString" (own_keys (VObj toString_document)))
    by (simpl; tauto).
  assert (H4 : "toString" ∈ Object_prototype).
  { unfold Object_prototype. rewrite !elem_of_cons. tauto. }
  assert (H5 : get (_scheme (things_model (VBool true))) "toString" = None)
    by reflexivity.
  refine (conj H1 (conj H2 (conj H3 (conj H4 (conj H5 _))))).
  exact (inherited_key_rejected "things" (things_model (VBool true))
           (VObj toString_document) "toString" loose_db H1 H2 H3 H4 H5).
Defined.

(** [define('things', ..., 5)] on a new database. *)
Lemma define_failure_leaves_entry_witness :
  models constructor !! "things" = None
  /\ ("things" ∉ Object_prototype)
  /\ define "things" level_definition (VNum (number_of_Z 5)) constructor
     = (Throw TypeError, failed_db)
  /\ (exists m, models failed_db !! "things" = Some m /\ _collection m = None)
  /\ getModel "things" failed_db = RefNull
  /\ (forall definition' options',
        define "things" definition' options' failed_db
        = (Throw (RedefinitionError "things"), failed_db)).
Proof.
  assert (H1 : models constructor !! "things" = None) by reflexivity.
  assert (H2 : "things" ∉ Object_prototype).
  { unfold Object_prototype. rewrite !elem_of_cons, elem_of_nil.
    intuition discriminate. }
  assert (H3 : define "things" level_definition (VNum (number_of_Z 5))
                 constructor
               = (Throw TypeError, failed_db)) by reflexivity.
  refine (conj H1 (conj H2 (conj H3 _))).
  exact (define_failure_leaves_entry "things" level_definition
           (VNum (number_of_Z 5)) constructor TypeError failed_db H1 H2 H3).
Defined.

End MoreWitnesses.
